(** * RHT03 sensor driver for AVR (therm.c): model and properties

    The driver bit-bangs the single-wire protocol of the RHT03
    temperature and humidity sensor.  It polls one pin of port B in two
    spin loops, counts how long each high pulse lasts, thresholds the
    count into a bit and shifts the bits into five byte buckets.

    Integers are modelled as [Z] with the wrap-around of their C type
    written out.  The pin is modelled by the sequence of values of the
    input register PINB, one per read; a spin loop that may run forever
    takes a fuel argument and returns [None] when the fuel is spent. *)

From Stdlib Require Import ZArith Lia Bool.
From stdpp Require Import base option list strings.

Local Open Scope Z_scope.

(** ** C integer types of avr-gcc *)

Module Cint.

(** [uint8_t]: stores wrap modulo 2^8. *)
Definition to_uint8 (z : Z) : Z := z mod 256.

(** [uint16_t]: stores wrap modulo 2^16. *)
Definition to_uint16 (z : Z) : Z := z mod 65536.

(** [int] has 16 bits on AVR; avr-gcc wraps an operation that leaves
    the range to two's complement. *)
Definition to_int (z : Z) : Z := (z + 32768) mod 65536 - 32768.

Definition is_uint8 (z : Z) : Prop := 0 <= z < 256.

End Cint.
Import Cint.

(** ** Constants *)

(** [PB0] of <avr/io.h>: the sensor sits on bit 0 of port B. *)
Definition PB0 : Z := 0.
Definition THERM : Z := PB0.

(** [#define BIT_TRANSITIONS 40 + 2]: the macro has no parentheses; its
    only use is [counter < BIT_TRANSITIONS], where the text expands to
    [counter < 40 + 2]. *)
Definition BIT_TRANSITIONS : Z := 40 + 2.

Definition LONG_PULSE_LENGTH : Z := 28.

(** ** State *)

(** The two arrays of the program. *)
Inductive Array := Tries_b | Bits.

(** A store through an index past the end of an array.  C gives such a
    store no meaning; the model leaves the cells of the array as they
    are and records the store. *)
Inductive Fault := OutOfBounds (a : Array) (index : Z).

#[global] Instance Array_eq_dec : EqDecision Array.
Proof. solve_decision. Defined.
#[global] Instance Fault_eq_dec : EqDecision Fault.
Proof. solve_decision. Defined.

(** The line: [ln t] is the value of PINB at the [t]-th read of it. *)
Definition Line := nat -> Z.

(** [clock] counts the reads of PINB made so far; [tries_b] and
    [try_count] are the globals of the DEBUG build (DEBUG is 1);
    [faults] is the record of out-of-range stores. *)
Record Machine := mkMachine {
  clock : nat;
  tries_b : list Z;
  try_count : Z;
  faults : list Fault
}.

(** Globals are zero-initialised: [uint8_t tries_b[43]; uint8_t try_count = 0;] *)
Definition boot : Machine :=
  {| clock := 0%nat; tries_b := replicate 43 0; try_count := 0; faults := [] |}.

Record RHTresult := mkRHTresult {
  temperature : Z;
  humidity : Z;
  checksum : Z
}.

(** ** read_pin *)

(** [return (PINB & (1 << THERM)) ? 1 : 0;] *)
Definition read_pin (pinb : Z) : Z :=
  if Z.land pinb (Z.shiftl 1 THERM) =? 0 then 0 else 1.

(** ** next_bit *)

(** [while(read_pin() == 0) { }]: returns the clock after the read that
    saw the pin high. *)
Fixpoint wait_low (fuel : nat) (ln : Line) (t : nat) : option nat :=
  match fuel with
  | O => None
  | S fuel' =>
      if read_pin (ln t) =? 0 then wait_low fuel' ln (S t) else Some (S t)
  end.

(** [while(read_pin() == 1) { if(tries++ == 255) break; }]: [tries] is a
    [uint8_t]; the comparison sees the value before the increment. *)
Fixpoint count_high (fuel : nat) (ln : Line) (t : nat) (tries : Z)
  : option (Z * nat) :=
  match fuel with
  | O => None
  | S fuel' =>
      if read_pin (ln t) =? 1 then
        let tries' := to_uint8 (tries + 1) in
        if tries =? 255 then Some (tries', S t)
        else count_high fuel' ln (S t) tries'
      else Some (tries, S t)
  end.

(** [(tries > LONG_PULSE_LENGTH) ? 1 : 0] *)
Definition classify (tries : Z) : Z :=
  if tries >? LONG_PULSE_LENGTH then 1 else 0.

(** [tries_b[try_count] = tries; try_count++;]  Inside the buffer this
    is the store and the increment.  Past its end the store is
    recorded in [faults] and, in this definition, lands on neither
    global; [record_try_at] below takes the effect of such a store as
    a parameter, and what is proved about the debug globals after an
    overrun is proved for every such effect. *)
Definition record_try (tries : Z) (m : Machine) : Machine :=
  let i := Z.to_nat (try_count m) in
  {| clock := clock m;
     tries_b := <[i := tries]> (tries_b m);
     try_count := to_uint8 (try_count m + 1);
     faults := if decide (i < length (tries_b m))%nat then faults m
               else faults m ++ [OutOfBounds Tries_b (try_count m)] |}.

Definition set_clock (t : nat) (m : Machine) : Machine :=
  {| clock := t; tries_b := tries_b m; try_count := try_count m;
     faults := faults m |}.

(** The two spin loops of [next_bit]: the count of the pulse. *)
Definition sample_pulse (fuel : nat) (ln : Line) (t : nat) : option (Z * nat) :=
  t1 ← wait_low fuel ln t;
  count_high fuel ln t1 0.

(** [void next_bit(uint8_t *state)]: the value stored through [state]
    is returned. *)
Definition next_bit (fuel : nat) (ln : Line) (m : Machine) : option (Z * Machine) :=
  '(tries, t2) ← sample_pulse fuel ln (clock m);
  Some (classify tries, record_try tries (set_clock t2 m)).

(** ** read_therm *)

(** [bucket = counter >> 3;] with [uint8_t bucket]. *)
Definition bucket_of (counter : Z) : Z := to_uint8 (Z.shiftr counter 3).

(** [bits[bucket] = (bits[bucket] << 1) | state;] on the cells of [bits]. *)
Definition shift_in (counter state : Z) (bits : list Z) : list Z :=
  let i := Z.to_nat (bucket_of counter) in
  match bits !! i with
  | Some b => <[i := to_uint8 (Z.lor (Z.shiftl b 1) state)]> bits
  | None => bits
  end.

Definition add_fault (f : Fault) (m : Machine) : Machine :=
  {| clock := clock m; tries_b := tries_b m; try_count := try_count m;
     faults := faults m ++ [f] |}.

(** The same statement on the machine: a bucket past the end of [bits]
    is recorded. *)
Definition check_bucket (counter : Z) (bits : list Z) (m : Machine) : Machine :=
  if decide (Z.to_nat (bucket_of counter) < length bits)%nat then m
  else add_fault (OutOfBounds Bits (bucket_of counter)) m.

(** [for(int counter=0; counter < BIT_TRANSITIONS; counter++) { ... }];
    [gas] bounds the iterations, [fuel] the polls of each [next_bit]. *)
Fixpoint scan (gas fuel : nat) (ln : Line) (counter : Z) (bits : list Z)
  (state : Z) (m : Machine) : option (list Z * Z * Machine) :=
  if counter <? BIT_TRANSITIONS then
    match gas with
    | O => None
    | S gas' =>
        '(state', m1) ← next_bit fuel ln m;
        scan gas' fuel ln (counter + 1) (shift_in counter state' bits) state'
          (check_bucket counter bits m1)
    end
  else Some (bits, state, m).

(** [uint8_t bits[5] = { 0, 0, 0, 0, 0 };] *)
Definition zero_bits : list Z := [0; 0; 0; 0; 0].

(** Lines 117 to 130: the locals, the two preamble pulses and the loop.
    The port and interrupt statements before them act on the hardware
    only. *)
Definition acquire (fuel : nat) (ln : Line) (m : Machine)
  : option (list Z * Machine) :=
  let bits := zero_bits in
  let state := 0 in
  '(state, m) ← next_bit fuel ln m;
  '(state, m) ← next_bit fuel ln m;
  '(bits, _, m) ← scan fuel fuel ln 0 bits state m;
  Some (bits, m).

(** [bits[k]] for [k] from 0 to 4, always inside the array. *)
Definition cell (bits : list Z) (k : nat) : Z := default 0 (bits !! k).

(** Lines 132 to 134.  The operands are promoted to [int]; the fields
    are [uint16_t], [uint16_t] and [uint8_t]. *)
Definition finish (bits : list Z) : RHTresult :=
  {| humidity :=
       to_uint16 (to_int (Z.lor (to_int (Z.shiftl (cell bits 0) 8)) (cell bits 1)));
     temperature :=
       to_uint16 (to_int (Z.lor (to_int (Z.shiftl (cell bits 2) 8)) (cell bits 3)));
     checksum :=
       to_uint8
         (if to_int (to_int (to_int (cell bits 0 + cell bits 1) + cell bits 2)
                     + cell bits 3) =? cell bits 4
          then 1 else 0) |}.

(** [void read_therm(RHTresult *result)]: the record written through
    [result] is returned. *)
Definition read_therm (fuel : nat) (ln : Line) (m : Machine)
  : option (RHTresult * Machine) :=
  '(bits, m') ← acquire fuel ln m;
  Some (finish bits, m').

(** ** Pulse trains for tests *)

(** A pulse counted as [c] is the pin high for [c + 1] reads (the read
    that ends the low wait, then [c] counted reads) and low for one. *)
Definition pulse_levels (c : nat) : list Z := replicate (S c) 1 ++ [0].

(** The line of a train of pulses; low once the train is over. *)
Definition line_of_counts (cs : list nat) : Line :=
  fun t => nth t (concat (map pulse_levels cs)) 0.

(** The pin never leaves the high level. *)
Definition stuck_high : Line := fun _ => 1.

(** The pin never leaves the low level. *)
Definition stuck_low : Line := fun _ => 0.

(** The prefix of the loop fed with given bits: the statements of lines
    128 and 129 for the counters from [counter] on. *)
Fixpoint scan_bits (counter : Z) (states : list Z) (bits : list Z) : list Z :=
  match states with
  | [] => bits
  | s :: rest => scan_bits (counter + 1) rest (shift_in counter s bits)
  end.

(** The value of a bit string read most significant bit first. *)
Definition be_value (l : list Z) : Z := fold_left (fun acc b => 2 * acc + b) l 0.

Definition is_bit (b : Z) : Prop := b = 0 \/ b = 1.

#[global] Instance is_bit_dec b : Decision (is_bit b).
Proof. unfold is_bit. apply _. Defined.

(** The eight pulses of a byte, most significant bit first: a long
    pulse counts 40 polls, a short one 10. *)
Definition pulses_of_byte (b : Z) : list nat :=
  map (fun i => if Z.testbit b (7 - Z.of_nat i) then 40%nat else 10%nat) (seq 0 8).

(** What the loop of [read_therm] consumes in one transaction: two
    preamble pulses, the forty data pulses of five bytes, and two
    pulses more. *)
Definition train_of_bytes (bytes : list Z) : list nat :=
  [40%nat; 40%nat] ++ concat (map pulses_of_byte bytes) ++ [40%nat; 40%nat].

(** The reading 40.0 %RH, 20.0 C of the data sheet's format. *)
Definition train44 : list nat := train_of_bytes [1; 144; 0; 200; 89].


(** Two lines look the same from two clocks on. *)
Definition same_view (ln1 : Line) (t1 : nat) (ln2 : Line) (t2 : nat) : Prop :=
  forall k, ln1 (t1 + k)%nat = ln2 (t2 + k)%nat.

(** The eight bits of a byte, most significant bit first. *)
Definition bits_of_byte (b : Z) : list Z :=
  map (fun i => if Z.testbit b (7 - Z.of_nat i) then 1 else 0) (seq 0 8).

(** The forty data bits of the frame 0x01 0x90 0x00 0xC8 0x59. *)
Definition frame40 : list Z := concat (map bits_of_byte [1; 144; 0; 200; 89]).

(** The line [ln] played again from clock [t0] on. *)
Definition replay (ln : Line) (t0 : nat) : Line := fun t => ln (t - t0)%nat.

(** The counts of [n] pulses in a row, sampled as [next_bit] samples
    them, with the clock after the last one. *)
Fixpoint pulse_counts (n fuel : nat) (ln : Line) (t : nat)
  : option (list Z * nat) :=
  match n with
  | O => Some ([], t)
  | S n' =>
      '(c, t1) ← sample_pulse fuel ln t;
      '(cs, t2) ← pulse_counts n' fuel ln t1;
      Some (c :: cs, t2)
  end.

(** The line of a list of levels, one per read, at level [idle] once
    the list is over. *)
Definition line_of_levels (idle : Z) (levels : list Z) : Line :=
  fun t => nth t levels idle.

(** The line of a train of pulses on a bus with a pull-up: high once
    the train is over. *)
Definition line_idle_high (cs : list nat) : Line :=
  line_of_levels 1 (concat (map pulse_levels cs)).

(** The reads a train of pulses takes. *)
Definition train_reads (cs : list nat) : nat :=
  length (concat (map pulse_levels cs)).

(** The pulses of a frame as the sensor sends them: two preamble
    pulses and the forty data pulses, nothing after. *)
Definition frame_pulses (bytes : list Z) : list nat :=
  [40%nat; 40%nat] ++ concat (map pulses_of_byte bytes).

(** The stores [tries_b[try_count] = tries; try_count++;] of a list of
    counts, in order. *)
Fixpoint record_tries (cs : list Z) (m : Machine) : Machine :=
  match cs with
  | [] => m
  | c :: cs' => record_tries cs' (record_try c m)
  end.

(** Two machines with the same debug globals. *)
Definition same_debug (m1 m2 : Machine) : Prop :=
  tries_b m1 = tries_b m2 /\ try_count m1 = try_count m2.

(** ** The port, the interrupt flag and the serial output *)

(** [PB1] and [CLKPCE] of <avr/io.h>. *)
Definition PB1 : Z := 1.
Definition LED : Z := PB1.
Definition CLKPCE : Z := 7.

(** [(1 << n)] *)
Definition bit (n : Z) : Z := Z.shiftl 1 n.

(** [reg |= mask], [reg &= ~mask] and [reg ^= mask] on an 8-bit
    register. *)
Definition set_bits (reg mask : Z) : Z := to_uint8 (Z.lor reg mask).
Definition clear_bits (reg mask : Z) : Z := to_uint8 (Z.land reg (Z.lnot mask)).
Definition toggle_bits (reg mask : Z) : Z := to_uint8 (Z.lxor reg mask).

(** The registers the program writes, the global interrupt flag, the
    milliseconds spent in [_delay_ms] and the values written to PORTB,
    oldest first.  [LED_PORT] and [THERM_PORT] are both PORTB. *)
Record Ports := mkPorts {
  DDRB : Z;
  PORTB : Z;
  CLKPR : Z;
  irq : bool;
  waited_ms : Z;
  portb_writes : list Z
}.

Definition write_DDRB (v : Z) (p : Ports) : Ports :=
  {| DDRB := v; PORTB := PORTB p; CLKPR := CLKPR p; irq := irq p;
     waited_ms := waited_ms p; portb_writes := portb_writes p |}.

Definition write_PORTB (v : Z) (p : Ports) : Ports :=
  {| DDRB := DDRB p; PORTB := v; CLKPR := CLKPR p; irq := irq p;
     waited_ms := waited_ms p; portb_writes := portb_writes p ++ [v] |}.

Definition write_CLKPR (v : Z) (p : Ports) : Ports :=
  {| DDRB := DDRB p; PORTB := PORTB p; CLKPR := v; irq := irq p;
     waited_ms := waited_ms p; portb_writes := portb_writes p |}.

(** [cli()] and [sei()] *)
Definition set_irq (b : bool) (p : Ports) : Ports :=
  {| DDRB := DDRB p; PORTB := PORTB p; CLKPR := CLKPR p; irq := b;
     waited_ms := waited_ms p; portb_writes := portb_writes p |}.

(** [_delay_ms(d)] *)
Definition delay_ms (d : Z) (p : Ports) : Ports :=
  {| DDRB := DDRB p; PORTB := PORTB p; CLKPR := CLKPR p; irq := irq p;
     waited_ms := waited_ms p + d; portb_writes := portb_writes p |}.

(** The calls of USART.h, in the order they are made; a read past the
    end of [tries_b] is an event of its own. *)
Inductive Out :=
  | InitUSART
  | PrintString (s : string)
  | PrintByte (b : Z)
  | PrintWord (w : Z)
  | ReadPast (index : Z).

(** The two characters of the C escape sequence for carriage return
    and line feed. *)
Definition crlf : string :=
  String (Ascii.ascii_of_nat 13) (String (Ascii.ascii_of_nat 10) EmptyString).

(** ** blink *)

(** The body of the loop of [blink]: toggle, wait, toggle, wait. *)
Definition blink_once (p : Ports) : Ports :=
  let p := write_PORTB (toggle_bits (PORTB p) (bit LED)) p in
  let p := delay_ms 100 p in
  let p := write_PORTB (toggle_bits (PORTB p) (bit LED)) p in
  delay_ms 100 p.

(** [for(int i = 1; i <= times; i++)]: [i] is a 16-bit [int]. *)
Fixpoint blink_from (gas : nat) (times i : Z) (p : Ports) : option Ports :=
  if i <=? times then
    match gas with
    | O => None
    | S gas' => blink_from gas' times (to_int (i + 1)) (blink_once p)
    end
  else Some p.

(** [void blink(int times)] *)
Definition blink (gas : nat) (times : Z) (p : Ports) : option Ports :=
  blink_from gas times 1 p.

(** ** print_debug *)

(** [printByte(tries_b[i])] *)
Definition print_try (tb : list Z) (i : Z) : Out :=
  match tb !! Z.to_nat i with
  | Some v => PrintByte v
  | None => ReadPast i
  end.

(** [for(int i = 0; i < 43; i++) { ... }]: the [n] iterations from
    index [i] on; [printByte] takes a [uint8_t]. *)
Fixpoint print_tries (n : nat) (i : Z) (tb : list Z) : list Out :=
  match n with
  | O => []
  | S n' =>
      [PrintByte (to_uint8 i); PrintString ": "; print_try tb i;
       PrintString crlf]
      ++ print_tries n' (i + 1) tb
  end.

(** [void print_debug(RHTresult *result)] in the DEBUG build. *)
Definition print_debug (result : RHTresult) (m : Machine) : list Out :=
  [PrintString ("Bits:" +:+ crlf)]
  ++ print_tries 43 0 (tries_b m)
  ++ [PrintString (crlf +:+ crlf);
      PrintString "Temperature: "; PrintWord (temperature result);
      PrintString crlf;
      PrintString "Humidity: "; PrintWord (humidity result);
      PrintString crlf;
      PrintString "Checksum: "; PrintByte (checksum result);
      PrintString (crlf +:+ crlf)].

(** ** read_therm with its port and serial statements *)

(** Lines 105 to 114: drive the pin low for 5 ms, disable the
    interrupts, release the pin to the pull-up and to input mode. *)
Definition wake (p : Ports) : Ports :=
  let p := write_DDRB (set_bits (DDRB p) (bit THERM)) p in
  let p := write_PORTB (clear_bits (PORTB p) (bit THERM)) p in
  let p := delay_ms 5 p in
  let p := set_irq false p in
  let p := write_PORTB (set_bits (PORTB p) (bit THERM)) p in
  write_DDRB (clear_bits (DDRB p) (bit THERM)) p.

(** The whole of [read_therm]: [wake], the sampling and the fields,
    [print_debug(result)], [sei()]. *)
Definition read_therm_io (fuel : nat) (ln : Line) (p : Ports) (m : Machine)
  : option (RHTresult * Ports * Machine * list Out) :=
  let p := wake p in
  '(result, m') ← read_therm fuel ln m;
  Some (result, set_irq true p, m', print_debug result m').

(** ** setup_avr and main *)

(** [void setup_avr(void)] in the DEBUG build. *)
Definition setup_avr (p : Ports) : Ports * list Out :=
  let p := write_CLKPR (to_uint8 (bit CLKPCE)) p in
  let p := write_CLKPR 0 p in
  let p := write_DDRB (set_bits (DDRB p) (bit LED)) p in
  (p, [InitUSART; PrintString ("Therm running" +:+ crlf)]).

(** One pass of the loop of [main]:
    [blink(3); _delay_ms(2000); read_therm(&result);] *)
Definition main_pass (fuel : nat) (ln : Line) (p : Ports) (m : Machine)
  : option (RHTresult * Ports * Machine * list Out) :=
  p ← blink fuel 3 p;
  read_therm_io fuel ln (delay_ms 2000 p) m.

(** The first [n] passes of [while(1)], with the readings and the
    serial output they produce. *)
Fixpoint main_passes (n fuel : nat) (ln : Line) (p : Ports) (m : Machine)
  : option (list RHTresult * Ports * Machine * list Out) :=
  match n with
  | O => Some ([], p, m, [])
  | S n' =>
      '(r, p, m, out) ← main_pass fuel ln p m;
      '(rs, p, m, outs) ← main_passes n' fuel ln p m;
      Some (r :: rs, p, m, out ++ outs)
  end.

(** [main] up to the end of its [n]-th pass. *)
Definition main (n fuel : nat) (ln : Line) (p : Ports)
  : option (list RHTresult * Ports * Machine * list Out) :=
  let '(p, banner) := setup_avr p in
  '(rs, p, m, outs) ← main_passes n fuel ln p boot;
  Some (rs, p, m, banner ++ outs).

(** The serial output of the loop of [print_debug] for a buffer whose
    cells are [cells], first index [i]. *)
Fixpoint tries_lines (i : Z) (cells : list Z) : list Out :=
  match cells with
  | [] => []
  | v :: rest =>
      [PrintByte (to_uint8 i); PrintString ": "; PrintByte v; PrintString crlf]
      ++ tries_lines (i + 1) rest
  end.

(** Two lines on which the sensor pin reads the same. *)
Definition same_pin (ln1 ln2 : Line) : Prop :=
  forall t, Z.testbit (ln1 t) THERM = Z.testbit (ln2 t) THERM.

(** The ports after [k] rounds of the loop of [blink]. *)
Definition after_blinks (k : nat) (p : Ports) : Ports :=
  {| DDRB := DDRB p; PORTB := PORTB p; CLKPR := CLKPR p; irq := irq p;
     waited_ms := waited_ms p + 200 * Z.of_nat k;
     portb_writes :=
       portb_writes p
       ++ concat (replicate k [toggle_bits (PORTB p) (bit LED); PORTB p]) |}.

(** A register value that differs from [v] in bit [k] at most. *)
Definition same_but_bit (k v w : Z) : Prop :=
  forall n, 0 <= n < 8 -> n <> k -> Z.testbit w n = Z.testbit v n.

(** ** The store past the end of tries_b *)

(** Where [tries_b[i]] lands for [i] of 43 and more is decided by the
    layout of the globals, not by the program.  A [Spill] is the effect
    of one such store on the two debug globals: from the index, the
    value stored and the pair of [tries_b] and [try_count] before, the
    pair after (before the increment that follows). *)
Definition Spill : Type := Z -> Z -> list Z * Z -> list Z * Z.

(** The store hits neither global. *)
Definition no_spill : Spill := fun _ _ g => g.

(** The globals laid out in the order of their declarations:
    [tries_b[43]] is [try_count]. *)
Definition spill_onto_try_count : Spill :=
  fun i v g => if i =? Z.of_nat (length g.1) then (g.1, v) else g.

(** A store past the end of the buffer changes no cell of the buffer. *)
Definition keeps_buffer (sp : Spill) : Prop :=
  forall i v g, (sp i v g).1 = g.1.

(** [tries_b[try_count] = tries; try_count++;] with the effect [sp] of
    the store when the index is past the end. *)
Definition record_try_at (sp : Spill) (tries : Z) (m : Machine) : Machine :=
  if decide (Z.to_nat (try_count m) < length (tries_b m))%nat
  then record_try tries m
  else
    let g := sp (try_count m) tries (tries_b m, try_count m) in
    {| clock := clock m;
       tries_b := g.1;
       try_count := to_uint8 (g.2 + 1);
       faults := faults m ++ [OutOfBounds Tries_b (try_count m)] |}.

(** [next_bit], the loop of [read_therm], and [read_therm] over
    [record_try_at]. *)
Definition next_bit_at (sp : Spill) (fuel : nat) (ln : Line) (m : Machine)
  : option (Z * Machine) :=
  '(tries, t2) ← sample_pulse fuel ln (clock m);
  Some (classify tries, record_try_at sp tries (set_clock t2 m)).

Fixpoint scan_at (sp : Spill) (gas fuel : nat) (ln : Line) (counter : Z)
  (bits : list Z) (state : Z) (m : Machine) : option (list Z * Z * Machine) :=
  if counter <? BIT_TRANSITIONS then
    match gas with
    | O => None
    | S gas' =>
        '(state', m1) ← next_bit_at sp fuel ln m;
        scan_at sp gas' fuel ln (counter + 1) (shift_in counter state' bits)
          state' (check_bucket counter bits m1)
    end
  else Some (bits, state, m).

Definition acquire_at (sp : Spill) (fuel : nat) (ln : Line) (m : Machine)
  : option (list Z * Machine) :=
  let bits := zero_bits in
  let state := 0 in
  '(state, m) ← next_bit_at sp fuel ln m;
  '(state, m) ← next_bit_at sp fuel ln m;
  '(bits, _, m) ← scan_at sp fuel fuel ln 0 bits state m;
  Some (bits, m).

Definition read_therm_at (sp : Spill) (fuel : nat) (ln : Line) (m : Machine)
  : option (RHTresult * Machine) :=
  '(bits, m') ← acquire_at sp fuel ln m;
  Some (finish bits, m').

(** The stores of a list of counts, in order, over [record_try_at]. *)
Fixpoint record_tries_at (sp : Spill) (cs : list Z) (m : Machine) : Machine :=
  match cs with
  | [] => m
  | c :: cs' => record_tries_at sp cs' (record_try_at sp c m)
  end.


(** * Properties *)

(** ** Integer arithmetic of the C types *)

Section Arithmetic.

Lemma is_uint8_to_uint8 z : is_uint8 (to_uint8 z).
Proof. unfold is_uint8, to_uint8. apply Z.mod_pos_bound. lia. Qed.

Lemma to_uint8_small z : is_uint8 z -> to_uint8 z = z.
Proof. unfold is_uint8, to_uint8. intros H. apply Z.mod_small. lia. Qed.

Lemma to_int_small z : -32768 <= z < 32768 -> to_int z = z.
Proof. unfold to_int. intros H. rewrite Z.mod_small; lia. Qed.

Lemma to_uint16_to_int z : to_uint16 (to_int z) = to_uint16 z.
Proof.
  unfold to_uint16, to_int.
  rewrite Zminus_mod, Zmod_mod, <- Zminus_mod.
  f_equal. lia.
Qed.

Lemma to_uint16_lor a b :
  to_uint16 (Z.lor a b) = Z.lor (to_uint16 a) (to_uint16 b).
Proof.
  unfold to_uint16. change 65536 with (2 ^ 16).
  rewrite <- !Z.land_ones by lia. apply Z.land_lor_distr_l.
Qed.

(** Shifting a bit into an even number adds it. *)
Lemma lor_shiftl_bit x b :
  is_bit b -> Z.lor (Z.shiftl x 1) b = 2 * x + b.
Proof.
  intros Hb. rewrite Z.shiftl_mul_pow2 by lia. change (2 ^ 1) with 2.
  destruct Hb as [-> | ->].
  - rewrite Z.lor_0_r. lia.
  - replace (x * 2) with (2 * x) by lia.
    apply Z.bits_inj'. intros n Hn.
    rewrite Z.lor_spec.
    destruct (Z.eq_dec n 0) as [-> | Hne].
    + rewrite Z.testbit_even_0, Z.testbit_odd_0. reflexivity.
    + replace n with (Z.succ (Z.pred n)) by lia.
      rewrite Z.testbit_even_succ, Z.testbit_odd_succ by lia.
      rewrite (Z.bits_above_log2 1) by (simpl; lia).
      apply orb_false_r.
Qed.

(** The 16-bit field built from two bytes: neither the promotion to
    [int] nor the store loses a bit. *)
Lemma word_of_bytes a b :
  is_uint8 a -> is_uint8 b ->
  to_uint16 (to_int (Z.lor (to_int (Z.shiftl a 8)) b))
  = Z.lor (Z.shiftl a 8) b.
Proof.
  unfold is_uint8. intros Ha Hb.
  rewrite to_uint16_to_int, to_uint16_lor, to_uint16_to_int.
  rewrite <- to_uint16_lor. unfold to_uint16.
  apply Z.mod_small. split.
  - apply Z.lor_nonneg. split; [apply Z.shiftl_nonneg|]; lia.
  - change 65536 with (2 ^ 16).
    assert (H0 : 0 <= Z.lor (Z.shiftl a 8) b).
    { apply Z.lor_nonneg. split; [apply Z.shiftl_nonneg|]; lia. }
    destruct (Z.eq_dec (Z.lor (Z.shiftl a 8) b) 0) as [-> | Hne]; [lia|].
    apply Z.log2_lt_pow2; [lia|].
    rewrite Z.log2_lor by (try apply Z.shiftl_nonneg; lia).
    apply Z.max_lub_lt.
    + destruct (Z.eq_dec a 0) as [-> | Ha0]; [simpl; lia|].
      rewrite Z.log2_shiftl by lia.
      assert (Z.log2 a < 8) by (apply Z.log2_lt_pow2; lia). lia.
    + destruct (Z.eq_dec b 0) as [-> | Hb0]; [simpl; lia|].
      assert (Z.log2 b < 8) by (apply Z.log2_lt_pow2; lia). lia.
Qed.

(** The sum of four bytes fits an [int]: no step of it wraps. *)
Lemma sum_of_bytes a b c d :
  is_uint8 a -> is_uint8 b -> is_uint8 c -> is_uint8 d ->
  to_int (to_int (to_int (a + b) + c) + d) = a + b + c + d.
Proof.
  unfold is_uint8. intros Ha Hb Hc Hd.
  rewrite (to_int_small (a + b)) by lia.
  rewrite (to_int_small (a + b + c)) by lia.
  apply to_int_small. lia.
Qed.

End Arithmetic.

(** ** The pulse sampler *)

Section Sampler.

Variable ln : Line.

Lemma read_pin_bit p : is_bit (read_pin p).
Proof. unfold read_pin, is_bit. destruct (_ =? 0); auto. Qed.

Lemma read_pin_high p : read_pin p <> 0 <-> read_pin p = 1.
Proof. destruct (read_pin_bit p) as [H | H]; rewrite H; split; congruence. Qed.

(** More fuel does not change the outcome of a loop that returned. *)
Lemma wait_low_mono fuel fuel' t t' :
  wait_low fuel ln t = Some t' -> (fuel <= fuel')%nat ->
  wait_low fuel' ln t = Some t'.
Proof.
  revert fuel' t. induction fuel as [|fuel IH]; intros fuel' t H Hle; [discriminate|].
  destruct fuel' as [|fuel']; [lia|]. simpl in *.
  destruct (read_pin (ln t) =? 0); [apply IH; [assumption | lia] | assumption].
Qed.

Lemma count_high_mono fuel fuel' t tries r :
  count_high fuel ln t tries = Some r -> (fuel <= fuel')%nat ->
  count_high fuel' ln t tries = Some r.
Proof.
  revert fuel' t tries. induction fuel as [|fuel IH]; intros fuel' t tries H Hle;
    [discriminate|].
  destruct fuel' as [|fuel']; [lia|]. simpl in *.
  destruct (read_pin (ln t) =? 1); [|assumption].
  destruct (tries =? 255); [assumption|]. apply IH; [assumption | lia].
Qed.

(** The low wait returns as soon as a read sees the pin high. *)
Lemma wait_low_finds k : forall t fuel,
  read_pin (ln (t + k)%nat) = 1 -> (k < fuel)%nat ->
  exists t', wait_low fuel ln t = Some t' /\ (t < t' <= S (t + k))%nat.
Proof.
  induction k as [|k IH]; intros t fuel Hk Hf.
  - destruct fuel as [|fuel]; [lia|]. simpl.
    replace (t + 0)%nat with t in Hk by lia. rewrite Hk. simpl.
    exists (S t). split; [reflexivity | lia].
  - destruct fuel as [|fuel]; [lia|]. simpl.
    destruct (read_pin (ln t) =? 0).
    + destruct (IH (S t) fuel) as (t' & Ht' & Hb).
      * replace (S t + k)%nat with (t + S k)%nat by lia. assumption.
      * lia.
      * exists t'. split; [assumption | lia].
    + exists (S t). split; [reflexivity | lia].
Qed.

(** When it returns, the read just before the returned clock saw the
    pin high. *)
Lemma wait_low_found fuel : forall t t',
  wait_low fuel ln t = Some t' ->
  exists k, t' = S (t + k) /\ read_pin (ln (t + k)%nat) = 1.
Proof.
  induction fuel as [|fuel IH]; intros t t' H; [discriminate|]. simpl in H.
  destruct (read_pin (ln t) =? 0) eqn:E.
  - destruct (IH _ _ H) as (k & -> & Hk). exists (S k).
    replace (t + S k)%nat with (S t + k)%nat by lia. split; [lia | assumption].
  - inversion H; subst. exists 0%nat. replace (t + 0)%nat with t by lia.
    split; [reflexivity|]. apply read_pin_high. intros Hz. rewrite Hz in E.
    discriminate.
Qed.

(** On a pin that stays low the low wait uses up any fuel. *)
Lemma wait_low_hangs fuel : forall t,
  (forall k, read_pin (ln (t + k)%nat) = 0) -> wait_low fuel ln t = None.
Proof.
  induction fuel as [|fuel IH]; intros t H; [reflexivity|]. simpl.
  pose proof (H 0%nat) as H0. replace (t + 0)%nat with t in H0 by lia.
  rewrite H0. simpl. apply IH. intros k.
  replace (S t + k)%nat with (t + S k)%nat by lia. apply H.
Qed.

(** The high wait returns within [256 - tries] reads, whatever the
    pin does. *)
Lemma count_high_total fuel : forall t tries,
  is_uint8 tries -> (Z.to_nat (256 - tries) <= fuel)%nat ->
  exists c t', count_high fuel ln t tries = Some (c, t')
               /\ is_uint8 c /\ (t < t' <= t + Z.to_nat (256 - tries))%nat.
Proof.
  unfold is_uint8.
  induction fuel as [|fuel IH]; intros t tries Ht Hf; [lia|]. simpl.
  destruct (read_pin (ln t) =? 1).
  - destruct (tries =? 255) eqn:E.
    + apply Z.eqb_eq in E. subst. exists (to_uint8 (255 + 1)), (S t).
      split; [reflexivity|]. split; [apply is_uint8_to_uint8 | lia].
    + apply Z.eqb_neq in E.
      rewrite (to_uint8_small (tries + 1)) by (unfold is_uint8; lia).
      destruct (IH (S t) (tries + 1)) as (c & t' & Hc & Hu & Hb); [lia | lia |].
      exists c, t'. split; [assumption|]. split; [assumption | lia].
  - exists tries, (S t). split; [reflexivity|]. split; [assumption | lia].
Qed.

Lemma sample_pulse_mono fuel fuel' t r :
  sample_pulse fuel ln t = Some r -> (fuel <= fuel')%nat ->
  sample_pulse fuel' ln t = Some r.
Proof.
  unfold sample_pulse. intros H Hle.
  destruct (wait_low fuel ln t) as [t1|] eqn:E; [|discriminate]. simpl in H.
  rewrite (wait_low_mono _ _ _ _ E Hle). simpl.
  eapply count_high_mono; eassumption.
Qed.

Lemma sample_pulse_uint8 fuel t c t' :
  sample_pulse fuel ln t = Some (c, t') -> is_uint8 c.
Proof.
  unfold sample_pulse. intros H.
  destruct (wait_low fuel ln t) as [t1|] eqn:E; [|discriminate]. simpl in H.
  destruct (count_high_total (256 + fuel) t1 0) as (c' & t'' & Hc & Hu & _);
    [unfold is_uint8; lia | lia |].
  rewrite (count_high_mono _ (256 + fuel) _ _ _ H) in Hc by lia.
  inversion Hc; subst. assumption.
Qed.

End Sampler.

(** ** One call of next_bit *)

Section NextBit.

Variable ln : Line.

Lemma next_bit_inv fuel m s m' :
  next_bit fuel ln m = Some (s, m') ->
  exists tries t2,
    sample_pulse fuel ln (clock m) = Some (tries, t2)
    /\ s = classify tries /\ m' = record_try tries (set_clock t2 m).
Proof.
  unfold next_bit. intros H.
  destruct (sample_pulse fuel ln (clock m)) as [[tries t2]|]; [|discriminate].
  simpl in H. inversion H; subst. eauto.
Qed.

Lemma classify_bit tries : is_bit (classify tries).
Proof. unfold classify, is_bit. destruct (_ >? _); auto. Qed.

Lemma next_bit_bit fuel m s m' :
  next_bit fuel ln m = Some (s, m') -> is_bit s.
Proof.
  intros H. destruct (next_bit_inv _ _ _ _ H) as (tries & t2 & _ & -> & _).
  apply classify_bit.
Qed.

Lemma next_bit_mono fuel fuel' m r :
  next_bit fuel ln m = Some r -> (fuel <= fuel')%nat ->
  next_bit fuel' ln m = Some r.
Proof.
  unfold next_bit. intros H Hle.
  destruct (sample_pulse fuel ln (clock m)) as [[tries t2]|] eqn:E; [|discriminate].
  rewrite (sample_pulse_mono _ _ _ _ _ E Hle). assumption.
Qed.


Lemma next_bit_length fuel m s m' :
  next_bit fuel ln m = Some (s, m') ->
  length (tries_b m') = length (tries_b m).
Proof.
  intros H. destruct (next_bit_inv _ _ _ _ H) as (tries & t2 & _ & _ & ->).
  simpl. apply length_insert.
Qed.

Lemma next_bit_faults fuel m s m' f :
  next_bit fuel ln m = Some (s, m') -> In f (faults m) -> In f (faults m').
Proof.
  intros H Hf. destruct (next_bit_inv _ _ _ _ H) as (tries & t2 & _ & _ & ->).
  simpl. destruct (decide _); [assumption|]. apply in_or_app. auto.
Qed.

End NextBit.

(** ** The loop of read_therm *)

Section Scan.

Variable ln : Line.

Lemma check_bucket_clock c bits m : clock (check_bucket c bits m) = clock m.
Proof. unfold check_bucket. destruct (decide _); reflexivity. Qed.

Lemma check_bucket_try_count c bits m :
  try_count (check_bucket c bits m) = try_count m.
Proof. unfold check_bucket. destruct (decide _); reflexivity. Qed.

Lemma check_bucket_tries_b c bits m :
  tries_b (check_bucket c bits m) = tries_b m.
Proof. unfold check_bucket. destruct (decide _); reflexivity. Qed.

Lemma check_bucket_faults c bits m f :
  In f (faults m) -> In f (faults (check_bucket c bits m)).
Proof.
  unfold check_bucket. destruct (decide _); [auto|]. simpl. intros H.
  apply in_or_app. auto.
Qed.

Lemma shift_in_length c s bits : length (shift_in c s bits) = length bits.
Proof.
  unfold shift_in. destruct (bits !! _); [apply length_insert | reflexivity].
Qed.

Lemma scan_mono gas : forall gas' fuel fuel' c bits st m r,
  scan gas fuel ln c bits st m = Some r ->
  (gas <= gas')%nat -> (fuel <= fuel')%nat ->
  scan gas' fuel' ln c bits st m = Some r.
Proof.
  induction gas as [|gas IH]; intros gas' fuel fuel' c bits st m r H Hg Hf.
  - simpl in H. destruct gas'; simpl; destruct (c <? BIT_TRANSITIONS);
      solve [discriminate | assumption].
  - destruct gas' as [|gas']; [lia|]. simpl in *.
    destruct (c <? BIT_TRANSITIONS); [|assumption].
    destruct (next_bit fuel ln m) as [[s m1]|] eqn:E; [|discriminate].
    rewrite (next_bit_mono _ _ _ _ _ E Hf). simpl in *.
    eapply IH; [eassumption | lia | lia].
Qed.


(** The loop is the fold of [shift_in] over the bits it sampled, one
    for each counter up to [BIT_TRANSITIONS]. *)
Lemma scan_run gas : forall fuel c bits st m bits' st' m',
  scan gas fuel ln c bits st m = Some (bits', st', m') ->
  0 <= c <= BIT_TRANSITIONS ->
  exists states,
    length states = Z.to_nat (BIT_TRANSITIONS - c)
    /\ Forall is_bit states
    /\ bits' = scan_bits c states bits.
Proof.
  induction gas as [|gas IH]; intros fuel c bits st m bits' st' m' H Hc;
    simpl in H; destruct (c <? BIT_TRANSITIONS) eqn:E;
    try discriminate;
    try (apply Z.ltb_ge in E; inversion H; subst; exists [];
         replace (BIT_TRANSITIONS - c) with 0 by lia;
         repeat split; constructor).
  apply Z.ltb_lt in E.
  destruct (next_bit fuel ln m) as [[s m1]|] eqn:En; [|discriminate].
  simpl in H.
  apply IH in H as (states & Hlen & Hbits & ->); [|lia].
  exists (s :: states). split; [simpl; rewrite Hlen; lia|].
  split; [constructor; [eapply next_bit_bit; eassumption | assumption]|].
  reflexivity.
Qed.


Lemma scan_faults gas : forall fuel c bits st m r f,
  scan gas fuel ln c bits st m = Some r ->
  In f (faults m) -> In f (faults r.2).
Proof.
  induction gas as [|gas IH]; intros fuel c bits st m r f H Hf;
    simpl in H; destruct (c <? BIT_TRANSITIONS);
    try discriminate; try (inversion H; subst; assumption).
  destruct (next_bit fuel ln m) as [[s m1]|] eqn:En; [|discriminate].
  simpl in H. eapply IH; [eassumption|].
  apply check_bucket_faults. eapply next_bit_faults; eassumption.
Qed.

(** The iteration of counter 40 indexes [bits] at 5, one past its end. *)
Lemma scan_overruns_bits gas : forall fuel c bits st m r,
  scan gas fuel ln c bits st m = Some r ->
  0 <= c <= 40 -> length bits = 5%nat ->
  In (OutOfBounds Bits 5) (faults r.2).
Proof.
  induction gas as [|gas IH]; intros fuel c bits st m r H Hc Hlen;
    simpl in H; destruct (c <? BIT_TRANSITIONS) eqn:E;
    try discriminate;
    try (apply Z.ltb_ge in E; unfold BIT_TRANSITIONS in E; lia).
  destruct (next_bit fuel ln m) as [[s m1]|] eqn:En; [|discriminate].
  simpl in H. destruct (Z.eq_dec c 40) as [-> | Hne].
  - eapply scan_faults; [eassumption|].
    unfold check_bucket. rewrite Hlen. simpl.
    apply in_or_app. right. left. reflexivity.
  - eapply IH; [eassumption | lia |]. rewrite shift_in_length. assumption.
Qed.

End Scan.

(** ** The frame assembler *)

Section Assembler.

Lemma be_value_snoc l b : be_value (l ++ [b]) = 2 * be_value l + b.
Proof. unfold be_value. rewrite fold_left_app. reflexivity. Qed.

Lemma be_value_bound l :
  Forall is_bit l -> 0 <= be_value l < 2 ^ Z.of_nat (length l).
Proof.
  induction l as [|b l IH] using rev_ind; intros H.
  - simpl. unfold be_value. simpl. lia.
  - apply Forall_app in H as [Hl Hb]. apply Forall_cons_1 in Hb as [Hb _].
    specialize (IH Hl). rewrite be_value_snoc, length_app. simpl.
    replace (Z.of_nat (length l + 1)) with (Z.succ (Z.of_nat (length l))) by lia.
    rewrite Z.pow_succ_r by lia. destruct Hb as [-> | ->]; lia.
Qed.

Lemma bucket_of_div i : 0 <= i < 2048 -> bucket_of i = i / 8.
Proof.
  intros Hi. unfold bucket_of. rewrite Z.shiftr_div_pow2 by lia.
  change (2 ^ 3) with 8. apply to_uint8_small. unfold is_uint8.
  split; [apply Z.div_pos; lia | apply Z.div_lt_upper_bound; lia].
Qed.

Lemma scan_bits_snoc l : forall c b bits,
  scan_bits c (l ++ [b]) bits
  = shift_in (c + Z.of_nat (length l)) b (scan_bits c l bits).
Proof.
  induction l as [|a l IH]; intros c b bits; simpl.
  - rewrite Z.add_0_r. reflexivity.
  - rewrite IH. f_equal. lia.
Qed.

Lemma scan_bits_length l : forall c bits,
  length (scan_bits c l bits) = length bits.
Proof.
  induction l as [|a l IH]; intros c bits; simpl; [reflexivity|].
  rewrite IH. apply shift_in_length.
Qed.

(** One step of the loop on a bucket inside the array: the bucket of
    the counter takes the bit at its low end; the others are kept. *)
Lemma shift_in_lookup i b bits old :
  0 <= i < 40 -> length bits = 5%nat ->
  bits !! Z.to_nat (i / 8) = Some old ->
  shift_in i b bits
  = <[Z.to_nat (i / 8) := to_uint8 (Z.lor (Z.shiftl old 1) b)]> bits.
Proof.
  intros Hi Hlen Hold. unfold shift_in.
  rewrite bucket_of_div by lia. rewrite Hold. reflexivity.
Qed.

(** After any prefix of the forty bits, bucket [k] holds the value of
    the bits of its own group of eight that have arrived. *)
Lemma scan_bits_buckets l :
  Forall is_bit l -> (length l <= 40)%nat ->
  forall k, (k < 5)%nat ->
    scan_bits 0 l zero_bits !! k = Some (be_value (take 8 (drop (8 * k) l))).
Proof.
  induction l as [|b l IH] using rev_ind; intros Hbits Hlen k Hk.
  - simpl. rewrite drop_nil, take_nil.
    do 5 (destruct k as [|k]; [reflexivity|]). lia.
  - apply Forall_app in Hbits as [Hl Hb]. apply Forall_cons_1 in Hb as [Hb _].
    rewrite length_app in Hlen. simpl in Hlen.
    specialize (IH Hl ltac:(lia)).
    remember (length l) as n eqn:Hn.
    assert (Hdiv : exists j, j = Z.to_nat (Z.of_nat n / 8)
                               /\ (8 * j <= n < 8 * j + 8)%nat).
    { eexists. split; [reflexivity|].
      pose proof (Z.div_mod (Z.of_nat n) 8 ltac:(lia)).
      pose proof (Z.mod_pos_bound (Z.of_nat n) 8 ltac:(lia)).
      assert (0 <= Z.of_nat n / 8) by (apply Z.div_pos; lia). lia. }
    destruct Hdiv as (j & Ej & Hdiv).
    assert (Hj : (j < 5)%nat) by lia.
    rewrite scan_bits_snoc, Z.add_0_l, <- Hn.
    rewrite (shift_in_lookup _ _ _ (be_value (take 8 (drop (8 * j) l))));
      [| lia | apply scan_bits_length | rewrite <- Ej; apply IH; assumption].
    rewrite <- Ej. destruct (decide (k = j)) as [-> | Hne].
    + rewrite list_lookup_insert_eq by (rewrite scan_bits_length; simpl; lia).
      f_equal.
      rewrite drop_app_le by lia.
      rewrite (take_ge (drop (8 * j) l ++ [b]))
        by (rewrite length_app, length_drop; simpl; lia).
      rewrite (take_ge (drop (8 * j) l)) by (rewrite length_drop; lia).
      rewrite be_value_snoc, lor_shiftl_bit by assumption.
      apply to_uint8_small. unfold is_uint8.
      assert (Hd : Forall is_bit (drop (8 * j) l)) by (apply Forall_drop; assumption).
      apply be_value_bound in Hd. rewrite length_drop, <- Hn in Hd.
      assert (2 ^ Z.of_nat (n - 8 * j) <= 2 ^ 7)
        by (apply Z.pow_le_mono_r; lia).
      change (2 ^ 7) with 128 in *. destruct Hb as [-> | ->]; lia.
    + rewrite list_lookup_insert_ne by congruence. rewrite IH by assumption.
      f_equal. f_equal.
      destruct (decide (k < j)%nat) as [Hlt | Hge].
      * rewrite drop_app_le by lia.
        symmetry. apply take_app_le. rewrite length_drop. lia.
      * rewrite !drop_ge; [reflexivity | |]; [|lia].
        rewrite length_app. simpl. lia.
Qed.

(** Bits fed at counters 40 and above do not reach [bits]. *)
Lemma scan_bits_past_end l : forall c bits,
  40 <= c -> c + Z.of_nat (length l) <= 2047 -> length bits = 5%nat ->
  scan_bits c l bits = bits.
Proof.
  induction l as [|a l IH]; intros c bits Hc Hmax Hlen; simpl; [reflexivity|].
  simpl in Hmax.
  assert (Hs : shift_in c a bits = bits).
  { unfold shift_in. rewrite bucket_of_div by lia.
    assert (5 <= c / 8) by (apply Z.div_le_lower_bound; lia).
    rewrite lookup_ge_None_2; [reflexivity | lia]. }
  rewrite Hs. apply IH; [lia | lia | assumption].
Qed.

Lemma scan_bits_app l1 : forall l2 c bits,
  scan_bits c (l1 ++ l2) bits
  = scan_bits (c + Z.of_nat (length l1)) l2 (scan_bits c l1 bits).
Proof.
  induction l1 as [|a l1 IH]; intros l2 c bits; simpl.
  - rewrite Z.add_0_r. reflexivity.
  - rewrite IH. f_equal. lia.
Qed.

End Assembler.

(** ** The line as seen from the clock *)

Section Views.

Variables ln1 ln2 : Line.

Lemma same_view_now t1 t2 : same_view ln1 t1 ln2 t2 -> ln1 t1 = ln2 t2.
Proof.
  intros H. specialize (H 0%nat). replace (t1 + 0)%nat with t1 in H by lia.
  replace (t2 + 0)%nat with t2 in H by lia. assumption.
Qed.

Lemma same_view_later t1 t2 d :
  same_view ln1 t1 ln2 t2 -> same_view ln1 (t1 + d) ln2 (t2 + d).
Proof.
  intros H k. replace (t1 + d + k)%nat with (t1 + (d + k))%nat by lia.
  replace (t2 + d + k)%nat with (t2 + (d + k))%nat by lia. apply H.
Qed.

Lemma wait_low_view fuel : forall t1 t2 t1',
  same_view ln1 t1 ln2 t2 -> wait_low fuel ln1 t1 = Some t1' ->
  exists d, t1' = (t1 + d)%nat /\ wait_low fuel ln2 t2 = Some (t2 + d)%nat.
Proof.
  induction fuel as [|fuel IH]; intros t1 t2 t1' Hv H; [discriminate|].
  simpl in *. rewrite <- (same_view_now _ _ Hv).
  destruct (read_pin (ln1 t1) =? 0).
  - destruct (IH (S t1) (S t2) t1') as (d & -> & Hd); [|assumption|].
    + replace (S t1) with (t1 + 1)%nat by lia.
      replace (S t2) with (t2 + 1)%nat by lia. apply same_view_later, Hv.
    + exists (S d). split; [lia|]. rewrite Hd. f_equal. lia.
  - inversion H; subst. exists 1%nat. split; [lia|]. f_equal. lia.
Qed.

Lemma count_high_view fuel : forall t1 t2 tries c t1',
  same_view ln1 t1 ln2 t2 -> count_high fuel ln1 t1 tries = Some (c, t1') ->
  exists d, t1' = (t1 + d)%nat
            /\ count_high fuel ln2 t2 tries = Some (c, (t2 + d)%nat).
Proof.
  induction fuel as [|fuel IH]; intros t1 t2 tries c t1' Hv H; [discriminate|].
  simpl in *. rewrite <- (same_view_now _ _ Hv).
  destruct (read_pin (ln1 t1) =? 1).
  - destruct (tries =? 255).
    + inversion H; subst. exists 1%nat. split; [lia|]. do 2 f_equal. lia.
    + destruct (IH (S t1) (S t2) (to_uint8 (tries + 1)) c t1')
        as (d & -> & Hd); [|assumption|].
      * replace (S t1) with (t1 + 1)%nat by lia.
        replace (S t2) with (t2 + 1)%nat by lia. apply same_view_later, Hv.
      * exists (S d). split; [lia|]. rewrite Hd. do 2 f_equal. lia.
  - inversion H; subst. exists 1%nat. split; [lia|]. do 2 f_equal. lia.
Qed.

Lemma sample_pulse_view fuel t1 t2 c t1' :
  same_view ln1 t1 ln2 t2 -> sample_pulse fuel ln1 t1 = Some (c, t1') ->
  exists d, t1' = (t1 + d)%nat
            /\ sample_pulse fuel ln2 t2 = Some (c, (t2 + d)%nat).
Proof.
  unfold sample_pulse. intros Hv H.
  destruct (wait_low fuel ln1 t1) as [ta|] eqn:E; [|discriminate]. simpl in H.
  destruct (wait_low_view _ _ _ _ Hv E) as (d & -> & ->). simpl.
  destruct (count_high_view _ _ _ _ _ _ (same_view_later _ _ d Hv) H)
    as (e & -> & ->).
  exists (d + e)%nat. split; [lia|]. do 2 f_equal. lia.
Qed.

(** The bit does not depend on the debug globals nor on the time of
    day, only on the line as seen from the clock. *)
Lemma next_bit_view fuel m1 m2 s m1' :
  same_view ln1 (clock m1) ln2 (clock m2) ->
  next_bit fuel ln1 m1 = Some (s, m1') ->
  exists m2', next_bit fuel ln2 m2 = Some (s, m2')
              /\ same_view ln1 (clock m1') ln2 (clock m2').
Proof.
  intros Hv H. destruct (next_bit_inv _ _ _ _ _ H) as (tries & t2 & Hs & -> & ->).
  destruct (sample_pulse_view _ _ _ _ _ Hv Hs) as (d & -> & Hs2).
  unfold next_bit. rewrite Hs2. simpl. eexists. split; [reflexivity|].
  simpl. apply same_view_later, Hv.
Qed.

Lemma scan_view gas : forall fuel c bits st m1 m2 bits' st' m1',
  same_view ln1 (clock m1) ln2 (clock m2) ->
  scan gas fuel ln1 c bits st m1 = Some (bits', st', m1') ->
  exists m2', scan gas fuel ln2 c bits st m2 = Some (bits', st', m2').
Proof.
  induction gas as [|gas IH]; intros fuel c bits st m1 m2 bits' st' m1' Hv H;
    simpl in *; destruct (c <? BIT_TRANSITIONS);
    try discriminate; try (inversion H; subst; eauto; fail).
  destruct (next_bit fuel ln1 m1) as [[s m1a]|] eqn:En; [|discriminate].
  destruct (next_bit_view _ _ _ _ _ Hv En) as (m2a & -> & Hva).
  simpl in *. eapply IH; [|eassumption].
  rewrite !check_bucket_clock. assumption.
Qed.

End Views.

(** ** One transaction *)

Section Transaction.

Variable ln : Line.

Lemma acquire_inv fuel m bits m' :
  acquire fuel ln m = Some (bits, m') ->
  exists s1 ma s2 mb st,
    next_bit fuel ln m = Some (s1, ma)
    /\ next_bit fuel ln ma = Some (s2, mb)
    /\ scan fuel fuel ln 0 zero_bits s2 mb = Some (bits, st, m').
Proof.
  unfold acquire. intros H.
  destruct (next_bit fuel ln m) as [[s1 ma]|] eqn:E1; [|discriminate].
  simpl in H.
  destruct (next_bit fuel ln ma) as [[s2 mb]|] eqn:E2; [|discriminate].
  simpl in H.
  destruct (scan fuel fuel ln 0 zero_bits s2 mb) as [[[b st] mc]|] eqn:E3;
    [|discriminate].
  simpl in H. inversion H; subst. exists s1, ma, s2, mb, st. auto.
Qed.

Lemma read_therm_inv fuel m r m' :
  read_therm fuel ln m = Some (r, m') ->
  exists bits, acquire fuel ln m = Some (bits, m') /\ r = finish bits.
Proof.
  unfold read_therm. intros H.
  destruct (acquire fuel ln m) as [[bits mc]|]; [|discriminate].
  simpl in H. inversion H; subst. eauto.
Qed.

Lemma acquire_mono fuel fuel' m r :
  acquire fuel ln m = Some r -> (fuel <= fuel')%nat ->
  acquire fuel' ln m = Some r.
Proof.
  destruct r as [bits m']. intros H Hle.
  destruct (acquire_inv _ _ _ _ H) as (s1 & ma & s2 & mb & st & H1 & H2 & H3).
  unfold acquire.
  rewrite (next_bit_mono _ _ _ _ _ H1 Hle). simpl.
  rewrite (next_bit_mono _ _ _ _ _ H2 Hle). simpl.
  rewrite (scan_mono _ _ _ _ _ _ _ _ _ _ H3 Hle Hle). reflexivity.
Qed.

(** The buckets a transaction leaves are those of the first forty
    bits of its loop; the bits of counters 40 and 41 do not reach
    the array. *)
Lemma acquire_run fuel m bits m' :
  acquire fuel ln m = Some (bits, m') ->
  exists data,
    length data = 40%nat /\ Forall is_bit data
    /\ bits = scan_bits 0 data zero_bits.
Proof.
  intros H.
  destruct (acquire_inv _ _ _ _ H) as (s1 & ma & s2 & mb & st & _ & _ & H3).
  apply scan_run in H3 as (states & Hlen & Hbits & ->);
    [|unfold BIT_TRANSITIONS; lia].
  change (Z.to_nat (BIT_TRANSITIONS - 0)) with 42%nat in Hlen.
  exists (take 40 states). split; [rewrite length_take; lia|].
  split; [apply Forall_take; assumption|].
  rewrite <- (take_drop 40 states) at 1.
  rewrite scan_bits_app. apply scan_bits_past_end.
  - rewrite length_take. lia.
  - rewrite length_take, length_drop. lia.
  - apply scan_bits_length.
Qed.

Lemma acquire_bytes fuel m bits m' :
  acquire fuel ln m = Some (bits, m') ->
  exists b0 b1 b2 b3 b4,
    bits = [b0; b1; b2; b3; b4]
    /\ is_uint8 b0 /\ is_uint8 b1 /\ is_uint8 b2 /\ is_uint8 b3 /\ is_uint8 b4.
Proof.
  intros H. destruct (acquire_run _ _ _ _ H) as (data & Hlen & Hbits & ->).
  assert (Hb : forall k, (k < 5)%nat ->
            exists v, scan_bits 0 data zero_bits !! k = Some v /\ is_uint8 v).
  { intros k Hk. eexists. split; [apply scan_bits_buckets; [assumption|lia|lia]|].
    assert (Hd : Forall is_bit (take 8 (drop (8 * k) data)))
      by (apply Forall_take, Forall_drop; assumption).
    apply be_value_bound in Hd. rewrite length_take, length_drop in Hd.
    replace (8 `min` (length data - 8 * k))%nat with 8%nat in Hd by lia.
    exact Hd. }
  pose proof (scan_bits_length data 0 zero_bits) as Hl.
  destruct (scan_bits 0 data zero_bits) as [|b0 [|b1 [|b2 [|b3 [|b4 [|]]]]]];
    try discriminate.
  exists b0, b1, b2, b3, b4. split; [reflexivity|].
  destruct (Hb 0%nat ltac:(lia)) as (? & [= <-] & ?).
  destruct (Hb 1%nat ltac:(lia)) as (? & [= <-] & ?).
  destruct (Hb 2%nat ltac:(lia)) as (? & [= <-] & ?).
  destruct (Hb 3%nat ltac:(lia)) as (? & [= <-] & ?).
  destruct (Hb 4%nat ltac:(lia)) as (? & [= <-] & ?).
  auto.
Qed.


Lemma acquire_overruns_bits fuel m bits m' :
  acquire fuel ln m = Some (bits, m') -> In (OutOfBounds Bits 5) (faults m').
Proof.
  intros H.
  destruct (acquire_inv _ _ _ _ H) as (s1 & ma & s2 & mb & st & _ & _ & H3).
  apply scan_overruns_bits in H3; [assumption | lia | reflexivity].
Qed.

(** The three fields computed from five bytes. *)
Lemma finish_fields b0 b1 b2 b3 b4 :
  is_uint8 b0 -> is_uint8 b1 -> is_uint8 b2 -> is_uint8 b3 ->
  humidity (finish [b0; b1; b2; b3; b4]) = Z.lor (Z.shiftl b0 8) b1
  /\ temperature (finish [b0; b1; b2; b3; b4]) = Z.lor (Z.shiftl b2 8) b3
  /\ checksum (finish [b0; b1; b2; b3; b4])
     = if b0 + b1 + b2 + b3 =? b4 then 1 else 0.
Proof.
  intros H0 H1 H2 H3. unfold finish, cell. simpl.
  rewrite !word_of_bytes, sum_of_bytes by assumption.
  repeat split. destruct (_ =? _); reflexivity.
Qed.

End Transaction.

Lemma acquire_view ln1 ln2 fuel m1 m2 bits m1' :
  same_view ln1 (clock m1) ln2 (clock m2) ->
  acquire fuel ln1 m1 = Some (bits, m1') ->
  exists m2', acquire fuel ln2 m2 = Some (bits, m2').
Proof.
  intros Hv H.
  destruct (acquire_inv _ _ _ _ _ H) as (s1 & ma & s2 & mb & st & H1 & H2 & H3).
  destruct (next_bit_view _ _ _ _ _ _ _ Hv H1) as (ma2 & E1 & Hva).
  destruct (next_bit_view _ _ _ _ _ _ _ Hva H2) as (mb2 & E2 & Hvb).
  destruct (scan_view _ _ _ _ _ _ _ _ _ _ _ _ Hvb H3) as (m2' & E3).
  unfold acquire. rewrite E1. simpl. rewrite E2. simpl. rewrite E3. simpl. eauto.
Qed.

(** ** Bit positions inside a bucket *)

Section BitPositions.

(** Bit [r] of a string of [n] bits read most significant bit first
    sits at position [n - 1 - r] of its value. *)
Lemma be_value_testbit l :
  Forall is_bit l ->
  forall r b, l !! r = Some b ->
    Z.testbit (be_value l) (Z.of_nat (length l - 1 - r)) = (b =? 1).
Proof.
  induction l as [|a l IH] using rev_ind; intros Hbits r b Hr; [discriminate|].
  apply Forall_app in Hbits as [Hl Ha]. apply Forall_cons_1 in Ha as [Ha _].
  rewrite be_value_snoc, length_app. simpl.
  destruct (decide (r < length l)%nat) as [Hlt | Hge].
  - rewrite lookup_app_l in Hr by assumption.
    replace (Z.of_nat (length l + 1 - 1 - r))
      with (Z.succ (Z.of_nat (length l - 1 - r))) by lia.
    rewrite <- (IH Hl r b Hr).
    destruct Ha as [-> | ->].
    + rewrite Z.add_0_r. apply Z.testbit_even_succ. lia.
    + apply Z.testbit_odd_succ. lia.
  - pose proof (lookup_lt_Some _ _ _ Hr) as Hb.
    rewrite length_app in Hb. simpl in Hb.
    assert (r = length l) as -> by lia.
    rewrite list_lookup_middle in Hr by reflexivity. inversion Hr; subst.
    replace (Z.of_nat (length l + 1 - 1 - length l)) with 0 by lia.
    destruct Ha as [-> | ->].
    + rewrite Z.add_0_r. apply Z.testbit_even_0.
    + apply Z.testbit_odd_0.
Qed.

(** Bit [i] of the frame is bit [7 - i mod 8] of bucket [i / 8]. *)
Lemma scan_bits_testbit data i b :
  length data = 40%nat -> Forall is_bit data ->
  data !! i = Some b ->
  exists v, scan_bits 0 data zero_bits !! (i / 8)%nat = Some v
            /\ Z.testbit v (7 - Z.of_nat (i mod 8)) = (b =? 1).
Proof.
  intros Hlen Hbits Hi.
  pose proof (lookup_lt_Some _ _ _ Hi) as Hlt. rewrite Hlen in Hlt.
  pose proof (Nat.div_mod_eq i 8) as Hdm.
  pose proof (Nat.mod_upper_bound i 8 ltac:(lia)) as Hmod.
  assert (Hk : (i / 8 < 5)%nat) by lia.
  eexists. split; [apply scan_bits_buckets; [assumption | lia | assumption]|].
  set (grp := take 8 (drop (8 * (i / 8)) data)).
  assert (Hg : length grp = 8%nat)
    by (unfold grp; rewrite length_take, length_drop; lia).
  replace (7 - Z.of_nat (i mod 8))
    with (Z.of_nat (length grp - 1 - i mod 8)) by lia.
  apply be_value_testbit.
  - unfold grp. apply Forall_take, Forall_drop. assumption.
  - unfold grp. rewrite lookup_take_lt by lia. rewrite lookup_drop.
    rewrite <- Hdm. assumption.
Qed.

End BitPositions.

(** * Main results *)

(** C5: the bit classifier returns 1 when the count is greater than the
    threshold [LONG_PULSE_LENGTH] and 0 otherwise; the comparison is
    strict, so a count equal to the threshold gives 0 and the threshold
    plus one gives 1, and no other value is returned. *)
Theorem classify_strict_threshold (count : Z) :
  (classify count = 1 <-> count > LONG_PULSE_LENGTH)
  /\ (classify count = 0 <-> count <= LONG_PULSE_LENGTH)
  /\ classify LONG_PULSE_LENGTH = 0
  /\ classify (LONG_PULSE_LENGTH + 1) = 1
  /\ is_bit (classify count).
Proof.
  unfold classify. destruct (count >? LONG_PULSE_LENGTH) eqn:E.
  - apply Z.gtb_lt in E.
    repeat split; try reflexivity; try intros; try lia; try discriminate.
    right; reflexivity.
  - rewrite Z.gtb_ltb in E. apply Z.ltb_ge in E.
    repeat split; try reflexivity; try intros; try lia; try discriminate.
    left; reflexivity.
Qed.

(** The fold of lines 128 and 129 over any forty bits: bit [i] goes to
    bucket [i / 8]; in the end every bucket is the value of its eight
    bits read most significant bit first, bit [i] sitting at position
    [7 - i mod 8]; each step is [bucket = (bucket << 1) | bit]. *)
Lemma scan_bits_big_endian (data : list Z) :
  length data = 40%nat -> Forall is_bit data ->
  (forall i b, data !! i = Some b ->
     bucket_of (Z.of_nat i) = Z.of_nat (i / 8)
     /\ exists v, scan_bits 0 data zero_bits !! (i / 8)%nat = Some v
                  /\ Z.testbit v (7 - Z.of_nat (i mod 8)) = (b =? 1))
  /\ (forall k, (k < 5)%nat ->
        scan_bits 0 data zero_bits !! k
        = Some (be_value (take 8 (drop (8 * k) data))))
  /\ (forall i s bits old,
        0 <= i < 40 -> length bits = 5%nat ->
        bits !! Z.to_nat (i / 8) = Some old ->
        shift_in i s bits
        = <[Z.to_nat (i / 8) := to_uint8 (Z.lor (Z.shiftl old 1) s)]> bits).
Proof.
  intros Hlen Hbits. split; [|split].
  - intros i b Hi. split.
    + pose proof (lookup_lt_Some _ _ _ Hi) as Hlt. rewrite Hlen in Hlt.
      rewrite bucket_of_div by lia.
      symmetry. apply (Nat2Z.inj_div i 8).
    + apply scan_bits_testbit; assumption.
  - intros k Hk. apply scan_bits_buckets; [assumption | lia | assumption].
  - intros i s bits old. apply shift_in_lookup.
Qed.

(** C6: a completed transaction returns the humidity as
    [bucket0 << 8 | bucket1] and the temperature as
    [bucket2 << 8 | bucket3], both 16-bit values, for the buckets that
    the acquisition assembled. *)
Theorem reading_fields_from_buckets (fuel : nat) (ln : Line) (m : Machine)
    (r : RHTresult) (m' : Machine) :
  read_therm fuel ln m = Some (r, m') ->
  exists b0 b1 b2 b3 b4,
    acquire fuel ln m = Some ([b0; b1; b2; b3; b4], m')
    /\ humidity r = Z.lor (Z.shiftl b0 8) b1
    /\ temperature r = Z.lor (Z.shiftl b2 8) b3
    /\ 0 <= humidity r < 65536 /\ 0 <= temperature r < 65536.
Proof.
  intros H. destruct (read_therm_inv _ _ _ _ _ H) as (bits & Ha & ->).
  destruct (acquire_bytes _ _ _ _ _ Ha)
    as (b0 & b1 & b2 & b3 & b4 & -> & H0 & H1 & H2 & H3 & H4).
  exists b0, b1, b2, b3, b4. split; [assumption|].
  destruct (finish_fields b0 b1 b2 b3 b4 H0 H1 H2 H3) as (Hh & Ht & _).
  split; [assumption|]. split; [assumption|].
  unfold finish, to_uint16. simpl.
  split; apply Z.mod_pos_bound; lia.
Qed.


(** C8: decoding is a function of the pulses alone: two runs that see
    the same line from their clocks on, whatever their debug globals,
    their time of start and their budget of polls, return the same
    reading. *)
Theorem decode_twice_same_reading (ln1 ln2 : Line) (fuel1 fuel2 : nat)
    (m1 m2 : Machine) (r : RHTresult) (m1' : Machine) :
  same_view ln1 (clock m1) ln2 (clock m2) ->
  (fuel1 <= fuel2)%nat ->
  read_therm fuel1 ln1 m1 = Some (r, m1') ->
  exists m2', read_therm fuel2 ln2 m2 = Some (r, m2').
Proof.
  intros Hv Hle H. destruct (read_therm_inv _ _ _ _ _ H) as (bits & Ha & ->).
  destruct (acquire_view _ _ _ _ _ _ _ Hv Ha) as (m2' & Ha2).
  exists m2'. unfold read_therm.
  rewrite (acquire_mono _ _ _ _ _ Ha2 Hle). reflexivity.
Qed.

(** C9: the high wait of the sampler returns on every line, within 256
    reads of the pin (the break is taken when the counter holds 255);
    the low wait has no bound: on a line that never reads high
    [next_bit] does not return, and it returns exactly when some later
    read sees the pin high. *)
Theorem next_bit_returns_iff_line_goes_high (ln : Line) (m : Machine) :
  (forall t tries, is_uint8 tries ->
     exists c t', count_high 256 ln t tries = Some (c, t')
                  /\ (t < t' <= t + 256)%nat)
  /\ ((forall k, read_pin (ln (clock m + k)%nat) = 0) ->
      forall fuel, next_bit fuel ln m = None)
  /\ ((exists fuel, is_Some (next_bit fuel ln m))
      <-> exists k, read_pin (ln (clock m + k)%nat) = 1).
Proof.
  split; [|split].
  - intros t tries Hu.
    destruct (count_high_total ln 256 t tries Hu) as (c & t' & Hc & _ & Hb).
    { unfold is_uint8 in Hu. lia. }
    exists c, t'. split; [assumption|]. unfold is_uint8 in Hu. lia.
  - intros Hlow fuel. unfold next_bit, sample_pulse.
    rewrite (wait_low_hangs ln fuel (clock m) Hlow). reflexivity.
  - split.
    + intros (fuel & [[s m'] Hs]).
      destruct (next_bit_inv _ _ _ _ _ Hs) as (tries & t2 & Hp & _).
      unfold sample_pulse in Hp.
      destruct (wait_low fuel ln (clock m)) as [t1|] eqn:E; [|discriminate].
      destruct (wait_low_found _ _ _ _ E) as (k & _ & Hk). eauto.
    + intros (k & Hk).
      remember (S k + 256)%nat as f eqn:Ef.
      destruct (wait_low_finds ln k (clock m) f Hk ltac:(lia))
        as (t1 & Hw & _).
      destruct (count_high_total ln f t1 0) as (c & t' & Hc & _);
        [unfold is_uint8; lia | lia |].
      exists f. unfold next_bit, sample_pulse.
      rewrite Hw. simpl. rewrite Hc. simpl. eexists. reflexivity.
Qed.

(** C1: a transaction is meant to take 42 samples, 40 of them data
    bits, and to store inside the five buckets only; the code does
    not.  The loop bound [40 + 2] counts the
    preamble that lines 122 and 123 have already consumed: on a train
    of 44 pulses the transaction calls [next_bit] 44 times (the write
    index of the debug trace ends at 44), and the iterations of
    counters 40 and 41 store at [bits[5]], past the end of [bits]. *)
Theorem transaction_takes_44_samples_and_overruns_bits :
  length train44 = 44%nat
  /\ exists r m',
       read_therm 300 (line_of_counts train44) boot = Some (r, m')
       /\ try_count m' = 44
       /\ faults m'
          = [OutOfBounds Bits 5; OutOfBounds Tries_b 43; OutOfBounds Bits 5]
       /\ bucket_of 40 = 5 /\ bucket_of 41 = 5
       /\ zero_bits !! Z.to_nat (bucket_of 40) = None.
Proof.
  split; [reflexivity|]. eexists. eexists.
  split; [vm_compute; reflexivity|].
  repeat split.
Qed.

(** C2: the validity test compares the sum of the four bytes, computed
    in [int] without reduction, with the fifth byte.  For the buckets
    0x01 0x90 0x00 0xC8 0x59 the sum is 0x159, which is 0x59 modulo
    256, and the code reports the reading as not valid. *)
Theorem checksum_sum_is_not_reduced :
  (1 + 144 + 0 + 200) mod 256 = 89
  /\ checksum (finish [1; 144; 0; 200; 89]) = 0
  /\ exists m',
       read_therm 300 (line_of_counts train44) boot
       = Some ({| temperature := 200; humidity := 400; checksum := 0 |}, m').
Proof.
  split; [reflexivity|]. split; [reflexivity|].
  eexists. vm_compute. reflexivity.
Qed.

(** C3: on a line that stays high the high wait is left at the 256th
    counted read, where the post-increment wraps the 8-bit counter from
    255 to 0: the count returned and recorded is 0, classified as a
    short pulse, while a pulse of 255 counted reads gives 255.  A whole
    transaction on such a line returns the reading 0, 0 as valid. *)
Theorem stuck_high_count_wraps_to_zero :
  (forall t fuel,
     sample_pulse (257 + fuel) stuck_high t = Some (0, (257 + t)%nat))
  /\ sample_pulse 300 (line_of_counts [256%nat]) 0 = Some (0, 257%nat)
  /\ sample_pulse 300 (line_of_counts [255%nat]) 0 = Some (255, 257%nat)
  /\ classify 0 = 0 /\ classify 255 = 1
  /\ (exists m', next_bit 300 stuck_high boot = Some (0, m')
                 /\ tries_b m' !! 0%nat = Some 0)
  /\ exists m',
       read_therm 300 stuck_high boot
       = Some ({| temperature := 0; humidity := 0; checksum := 1 |}, m').
Proof.
  split.
  { intros t fuel. apply (sample_pulse_mono stuck_high 257); [|lia].
    vm_compute. reflexivity. }
  do 4 (split; [vm_compute; reflexivity|]).
  split; eexists; [split|]; vm_compute; reflexivity.
Qed.

(** * The theorems at concrete inputs *)

Lemma reading_fields_from_buckets_witness :
  exists r m',
    read_therm 300 (line_of_counts train44) boot = Some (r, m')
    /\ exists b0 b1 b2 b3 b4,
         acquire 300 (line_of_counts train44) boot
         = Some ([b0; b1; b2; b3; b4], m')
         /\ humidity r = Z.lor (Z.shiftl b0 8) b1
         /\ temperature r = Z.lor (Z.shiftl b2 8) b3
         /\ 0 <= humidity r < 65536 /\ 0 <= temperature r < 65536.
Proof.
  eexists. eexists. split; [vm_compute; reflexivity|].
  apply (reading_fields_from_buckets 300 (line_of_counts train44) boot).
  vm_compute. reflexivity.
Defined.


Lemma decode_twice_same_reading_witness :
  exists r m1',
    read_therm 300 (line_of_counts train44) boot = Some (r, m1')
    /\ same_view (line_of_counts train44) (clock boot)
         (replay (line_of_counts train44) (clock m1')) (clock m1')
    /\ exists m2',
         read_therm 400 (replay (line_of_counts train44) (clock m1')) m1'
         = Some (r, m2').
Proof.
  eexists. eexists. split; [vm_compute; reflexivity|].
  assert (Hv : same_view (line_of_counts train44) (clock boot)
                 (replay (line_of_counts train44) 948) 948).
  { intros k. unfold replay. f_equal. change (clock boot) with 0%nat. lia. }
  split; [exact Hv|].
  match goal with
  | |- exists m2', read_therm _ _ ?m = _ =>
      eapply (decode_twice_same_reading (line_of_counts train44)
                (replay (line_of_counts train44) 948) 300 400 boot m _ _ Hv
                ltac:(lia))
  end.
  vm_compute. reflexivity.
Defined.

Lemma next_bit_returns_iff_line_goes_high_witness :
  next_bit 1000 stuck_low boot = None
  /\ exists fuel, is_Some (next_bit fuel stuck_high boot).
Proof.
  split.
  - apply (proj1 (proj2 (next_bit_returns_iff_line_goes_high stuck_low boot))).
    intros k. reflexivity.
  - apply (proj2 (proj2 (next_bit_returns_iff_line_goes_high stuck_high boot))).
    exists 0%nat. reflexivity.
Defined.

(** * Pulse trains *)

Section Trains.

Variable idle : Z.

Lemma pulse_levels_length c : length (pulse_levels c) = (c + 2)%nat.
Proof.
  unfold pulse_levels. rewrite length_app, length_replicate. simpl. lia.
Qed.

Lemma train_reads_cons c cs :
  train_reads (c :: cs) = (c + 2 + train_reads cs)%nat.
Proof.
  unfold train_reads.
  change (concat (map pulse_levels (c :: cs)))
    with (pulse_levels c ++ concat (map pulse_levels cs)).
  rewrite length_app, pulse_levels_length. reflexivity.
Qed.

(** During a pulse of count [c] the pin reads high [c + 1] times. *)
Lemma train_high c cs k :
  (k <= c)%nat ->
  read_pin (line_of_levels idle (concat (map pulse_levels (c :: cs))) k) = 1.
Proof.
  intros Hk. unfold line_of_levels.
  change (concat (map pulse_levels (c :: cs)))
    with (pulse_levels c ++ concat (map pulse_levels cs)).
  rewrite app_nth1 by (rewrite pulse_levels_length; lia).
  unfold pulse_levels. rewrite app_nth1 by (rewrite length_replicate; lia).
  rewrite nth_lookup, lookup_replicate_2 by lia. reflexivity.
Qed.

(** Then it reads low once. *)
Lemma train_low c cs :
  read_pin (line_of_levels idle (concat (map pulse_levels (c :: cs))) (S c)) = 0.
Proof.
  unfold line_of_levels.
  change (concat (map pulse_levels (c :: cs)))
    with (pulse_levels c ++ concat (map pulse_levels cs)).
  rewrite app_nth1 by (rewrite pulse_levels_length; lia).
  unfold pulse_levels. rewrite app_nth2 by (rewrite length_replicate; lia).
  rewrite length_replicate. replace (S c - S c)%nat with 0%nat by lia.
  reflexivity.
Qed.

(** After the pulse the line is the line of the rest of the train. *)
Lemma train_rest c cs :
  same_view (line_of_levels idle (concat (map pulse_levels (c :: cs))))
    (c + 2) (line_of_levels idle (concat (map pulse_levels cs))) 0.
Proof.
  intros k. unfold line_of_levels.
  change (concat (map pulse_levels (c :: cs)))
    with (pulse_levels c ++ concat (map pulse_levels cs)).
  rewrite <- (pulse_levels_length c), Nat.add_0_l. apply app_nth2_plus.
Qed.

End Trains.

Section PulseCounts.

Lemma same_view_sym ln1 t1 ln2 t2 :
  same_view ln1 t1 ln2 t2 -> same_view ln2 t2 ln1 t1.
Proof. intros H k. symmetry. apply H. Qed.

Lemma same_view_trans ln1 t1 ln2 t2 ln3 t3 :
  same_view ln1 t1 ln2 t2 -> same_view ln2 t2 ln3 t3 -> same_view ln1 t1 ln3 t3.
Proof. intros H1 H2 k. rewrite H1. apply H2. Qed.

(** A run of [j] high reads closed by a low read adds [j] to the
    counter, as long as the counter stays within 255. *)
Lemma count_high_run ln j : forall fuel t tries,
  (forall i, (i < j)%nat -> read_pin (ln (t + i)%nat) = 1) ->
  read_pin (ln (t + j)%nat) = 0 ->
  0 <= tries -> tries + Z.of_nat j <= 255 -> (j < fuel)%nat ->
  count_high fuel ln t tries = Some (tries + Z.of_nat j, S (t + j)).
Proof.
  induction j as [|j IH]; intros fuel t tries Hhi Hlo H0 Hmax Hf;
    (destruct fuel as [|fuel]; [lia|]); simpl.
  - replace (t + 0)%nat with t in * by lia. rewrite Hlo. simpl.
    do 2 f_equal. lia.
  - pose proof (Hhi 0%nat ltac:(lia)) as Hnow.
    replace (t + 0)%nat with t in Hnow by lia. rewrite Hnow. simpl.
    destruct (tries =? 255) eqn:E; [apply Z.eqb_eq in E; lia|].
    rewrite to_uint8_small by (unfold is_uint8; lia).
    rewrite (IH fuel (S t) (tries + 1)); try lia.
    + do 2 f_equal; lia.
    + intros i Hi. replace (S t + i)%nat with (t + S i)%nat by lia.
      apply Hhi. lia.
    + replace (S t + j)%nat with (t + S j)%nat by lia. assumption.
Qed.

(** Sampling a pulse of count [c] up to 255 returns [c] and takes
    [c + 2] reads. *)
Lemma sample_pulse_of_pulse ln t c fuel :
  (forall i, (i <= c)%nat -> read_pin (ln (t + i)%nat) = 1) ->
  read_pin (ln (t + S c)%nat) = 0 ->
  (c <= 255)%nat -> (c + 2 <= fuel)%nat ->
  sample_pulse fuel ln t = Some (Z.of_nat c, (t + (c + 2))%nat).
Proof.
  intros Hhi Hlo Hc Hf. unfold sample_pulse.
  assert (Hw : wait_low fuel ln t = Some (S t)).
  { destruct fuel as [|fuel]; [lia|]. simpl.
    pose proof (Hhi 0%nat ltac:(lia)) as Hnow.
    replace (t + 0)%nat with t in Hnow by lia. rewrite Hnow. reflexivity. }
  rewrite Hw. simpl.
  rewrite (count_high_run ln c fuel (S t) 0); try lia.
  - do 2 f_equal; lia.
  - intros i Hi. replace (S t + i)%nat with (t + S i)%nat by lia.
    apply Hhi. lia.
  - replace (S t + c)%nat with (t + S c)%nat by lia. assumption.
Qed.

Lemma pulse_counts_mono n : forall fuel fuel' ln t r,
  pulse_counts n fuel ln t = Some r -> (fuel <= fuel')%nat ->
  pulse_counts n fuel' ln t = Some r.
Proof.
  induction n as [|n IH]; intros fuel fuel' ln t r H Hle; [assumption|].
  simpl in *.
  destruct (sample_pulse fuel ln t) as [[c t1]|] eqn:E; [|discriminate].
  rewrite (sample_pulse_mono _ _ _ _ _ E Hle). simpl in *.
  destruct (pulse_counts n fuel ln t1) as [[cs t2]|] eqn:E2; [|discriminate].
  rewrite (IH _ _ _ _ _ E2 Hle). assumption.
Qed.

Lemma pulse_counts_app n1 : forall n2 fuel ln t,
  pulse_counts (n1 + n2) fuel ln t
  = '(a, t1) ← pulse_counts n1 fuel ln t;
    '(b, t2) ← pulse_counts n2 fuel ln t1;
    Some (a ++ b, t2).
Proof.
  induction n1 as [|n1 IH]; intros n2 fuel ln t; simpl.
  - destruct (pulse_counts n2 fuel ln t) as [[b t2]|]; reflexivity.
  - destruct (sample_pulse fuel ln t) as [[c t1]|]; [|reflexivity]. simpl.
    rewrite IH.
    destruct (pulse_counts n1 fuel ln t1) as [[a t2]|]; [|reflexivity]. simpl.
    destruct (pulse_counts n2 fuel ln t2) as [[b t3]|]; reflexivity.
Qed.

Lemma pulse_counts_length n : forall fuel ln t cs t',
  pulse_counts n fuel ln t = Some (cs, t') -> length cs = n.
Proof.
  induction n as [|n IH]; intros fuel ln t cs t' H; simpl in H.
  - inversion H. reflexivity.
  - destruct (sample_pulse fuel ln t) as [[c t1]|]; [|discriminate].
    simpl in H.
    destruct (pulse_counts n fuel ln t1) as [[cs' t2]|] eqn:E; [|discriminate].
    inversion H; subst. simpl. f_equal. eapply IH. eassumption.
Qed.

End PulseCounts.

Section TrainCounts.

Lemma same_view_start ln1 t1 ln2 t2 d :
  same_view ln1 t1 ln2 t2 -> same_view ln1 (t1 + d) ln2 (0 + (t2 + d)).
Proof.
  intros H k. rewrite Nat.add_0_l.
  replace (t1 + d + k)%nat with (t1 + (d + k))%nat by lia.
  replace (t2 + d + k)%nat with (t2 + (d + k))%nat by lia. apply H.
Qed.

(** Sampling a well-formed train returns its counts, one by one, and
    leaves the line at what follows the train. *)
Lemma pulse_counts_train idle cs : forall rest ln t fuel,
  same_view ln t (line_of_levels idle (concat (map pulse_levels (cs ++ rest)))) 0 ->
  Forall (fun c => (c <= 255)%nat) cs -> (257 <= fuel)%nat ->
  pulse_counts (length cs) fuel ln t
  = Some (map Z.of_nat cs, (t + train_reads cs)%nat)
  /\ same_view ln (t + train_reads cs)
       (line_of_levels idle (concat (map pulse_levels rest))) 0.
Proof.
  induction cs as [|c cs IH]; intros rest ln t fuel Hv Hcs Hf.
  - simpl. unfold train_reads. simpl. rewrite Nat.add_0_r. auto.
  - apply Forall_cons_1 in Hcs as [Hc Hcs].
    change ((c :: cs) ++ rest) with (c :: (cs ++ rest)) in Hv.
    assert (Hs : sample_pulse fuel ln t = Some (Z.of_nat c, (t + (c + 2))%nat)).
    { apply sample_pulse_of_pulse; try lia.
      - intros i Hi. rewrite (Hv i). apply train_high. assumption.
      - rewrite (Hv (S c)). apply train_low. }
    assert (Hv' : same_view ln (t + (c + 2))
                    (line_of_levels idle (concat (map pulse_levels (cs ++ rest)))) 0).
    { eapply same_view_trans; [apply (same_view_later _ _ _ _ (c + 2) Hv)|].
      apply train_rest. }
    destruct (IH rest ln (t + (c + 2))%nat fuel Hv' Hcs Hf) as [Hp Hr].
    rewrite train_reads_cons. split.
    + simpl. rewrite Hs. simpl. rewrite Hp. simpl. do 2 f_equal. lia.
    + replace (t + (c + 2 + train_reads cs))%nat
        with (t + (c + 2) + train_reads cs)%nat by lia. assumption.
Qed.

(** A line that has gone high for good gives the count 0 after 257
    reads, again and again. *)
Lemma sample_pulse_high_for_good ln t fuel :
  same_view ln t stuck_high 0 -> (257 <= fuel)%nat ->
  sample_pulse fuel ln t = Some (0, (t + 257)%nat).
Proof.
  intros Hv Hf. apply (sample_pulse_mono ln 257); [|assumption].
  assert (H0 : sample_pulse 257 stuck_high 0 = Some (0, 257%nat))
    by (vm_compute; reflexivity).
  destruct (sample_pulse_view _ _ _ _ _ _ _ (same_view_sym _ _ _ _ Hv) H0)
    as (d & Hd & ->).
  do 2 f_equal. lia.
Qed.

Lemma pulse_counts_high_for_good n : forall ln t fuel,
  same_view ln t stuck_high 0 -> (257 <= fuel)%nat ->
  pulse_counts n fuel ln t = Some (replicate n 0, (t + 257 * n)%nat).
Proof.
  induction n as [|n IH]; intros ln t fuel Hv Hf; simpl.
  - do 2 f_equal. lia.
  - rewrite (sample_pulse_high_for_good _ _ _ Hv Hf). simpl.
    rewrite (IH ln (t + 257)%nat fuel); [simpl; do 2 f_equal; lia | | assumption].
    intros k. replace (t + 257 + k)%nat with (t + (257 + k))%nat by lia.
    rewrite Hv. reflexivity.
Qed.

Lemma idle_high_view t : same_view (line_of_levels 1 []) t stuck_high 0.
Proof. intros k. unfold line_of_levels, stuck_high. destruct (t + k)%nat; reflexivity. Qed.

(** A train that stops short on a line that idles low: the next
    sample never comes. *)
Lemma pulse_counts_short_train cs : forall n ln t fuel,
  same_view ln t (line_of_levels 0 (concat (map pulse_levels cs))) 0 ->
  Forall (fun c => (c <= 255)%nat) cs -> (length cs < n)%nat ->
  pulse_counts n fuel ln t = None.
Proof.
  induction cs as [|c cs IH]; intros n ln t fuel Hv Hcs Hn;
    (destruct n as [|n]; [simpl in Hn; lia|]); simpl.
  - unfold sample_pulse. rewrite wait_low_hangs; [reflexivity|].
    intros k. rewrite (Hv k). unfold line_of_levels. simpl.
    destruct k; reflexivity.
  - destruct (sample_pulse fuel ln t) as [[c' t1]|] eqn:E; [|reflexivity].
    simpl. apply Forall_cons_1 in Hcs as [Hc Hcs].
    assert (Hs : sample_pulse (fuel + 257) ln t
                 = Some (Z.of_nat c, (t + (c + 2))%nat)).
    { apply sample_pulse_of_pulse; try lia.
      - intros i Hi. rewrite (Hv i). apply train_high. assumption.
      - rewrite (Hv (S c)). apply train_low. }
    rewrite (sample_pulse_mono _ _ (fuel + 257) _ _ E) in Hs by lia.
    inversion Hs; subst.
    rewrite (IH n ln (t + (c + 2))%nat fuel); [reflexivity | | assumption |].
    + eapply same_view_trans; [apply (same_view_later _ _ _ _ (c + 2) Hv)|].
      apply train_rest.
    + simpl in Hn. lia.
Qed.

End TrainCounts.

(** * The transaction as a pipeline *)

Section Pipeline.

Variable ln : Line.

Lemma same_debug_refl m : same_debug m m.
Proof. split; reflexivity. Qed.

Lemma record_try_same_debug c m1 m2 :
  same_debug m1 m2 -> same_debug (record_try c m1) (record_try c m2).
Proof. intros [Hb Hc]. unfold same_debug, record_try. simpl. rewrite Hb, Hc. auto. Qed.

Lemma record_tries_same_debug cs : forall m1 m2,
  same_debug m1 m2 -> same_debug (record_tries cs m1) (record_tries cs m2).
Proof.
  induction cs as [|c cs IH]; intros m1 m2 H; simpl; [assumption|].
  apply IH, record_try_same_debug, H.
Qed.

Lemma check_bucket_same_debug c bits m : same_debug (check_bucket c bits m) m.
Proof.
  split; [apply check_bucket_tries_b | apply check_bucket_try_count].
Qed.

Lemma same_debug_trans m1 m2 m3 :
  same_debug m1 m2 -> same_debug m2 m3 -> same_debug m1 m3.
Proof. intros [A B] [C D]. split; congruence. Qed.

Lemma remaining_succ c :
  0 <= c < BIT_TRANSITIONS ->
  Z.to_nat (BIT_TRANSITIONS - c) = S (Z.to_nat (BIT_TRANSITIONS - (c + 1))).
Proof. lia. Qed.

(** The loop samples one pulse per remaining counter, folds the
    classified counts into the buckets and records the counts. *)
Lemma scan_counts gas : forall fuel c bits st m bits' st' m',
  scan gas fuel ln c bits st m = Some (bits', st', m') ->
  0 <= c <= BIT_TRANSITIONS ->
  exists counts,
    pulse_counts (Z.to_nat (BIT_TRANSITIONS - c)) fuel ln (clock m)
    = Some (counts, clock m')
    /\ bits' = scan_bits c (map classify counts) bits
    /\ same_debug m' (record_tries counts m).
Proof.
  induction gas as [|gas IH]; intros fuel c bits st m bits' st' m' H Hc;
    simpl in H; destruct (c <? BIT_TRANSITIONS) eqn:E;
    try discriminate;
    try (apply Z.ltb_ge in E; inversion H; subst; exists [];
         replace (BIT_TRANSITIONS - c) with 0 by lia;
         repeat split; reflexivity).
  apply Z.ltb_lt in E.
  destruct (next_bit fuel ln m) as [[s m1]|] eqn:En; [|discriminate].
  simpl in H.
  destruct (next_bit_inv _ _ _ _ _ En) as (tries & t2 & Hs & -> & ->).
  apply IH in H as (counts & Hp & -> & Hd); [|lia].
  rewrite check_bucket_clock in Hp. simpl in Hp.
  exists (tries :: counts). rewrite remaining_succ by lia.
  split; [simpl; rewrite Hs; simpl; rewrite Hp; reflexivity|].
  split; [reflexivity|].
  eapply same_debug_trans; [exact Hd|]. simpl.
  apply record_tries_same_debug.
  eapply same_debug_trans; [apply check_bucket_same_debug|].
  apply record_try_same_debug. split; reflexivity.
Qed.

(** Conversely the loop returns as soon as the pulses are there. *)
Lemma scan_of_counts gas : forall fuel c bits st m counts t',
  pulse_counts (Z.to_nat (BIT_TRANSITIONS - c)) fuel ln (clock m)
  = Some (counts, t') ->
  0 <= c <= BIT_TRANSITIONS -> (Z.to_nat (BIT_TRANSITIONS - c) <= gas)%nat ->
  exists st' m',
    scan gas fuel ln c bits st m
    = Some (scan_bits c (map classify counts) bits, st', m')
    /\ clock m' = t'.
Proof.
  induction gas as [|gas IH]; intros fuel c bits st m counts t' H Hc Hg;
    simpl; destruct (c <? BIT_TRANSITIONS) eqn:E;
    try (apply Z.ltb_lt in E; lia);
    try (apply Z.ltb_ge in E;
         replace (BIT_TRANSITIONS - c) with 0 in H by lia;
         simpl in H; inversion H; subst; eauto; fail).
  apply Z.ltb_lt in E. rewrite remaining_succ in H by lia. simpl in H.
  destruct (sample_pulse fuel ln (clock m)) as [[tries t1]|] eqn:Es;
    [|discriminate].
  simpl in H.
  destruct (pulse_counts _ fuel ln t1) as [[cs t2]|] eqn:Ep; [|discriminate].
  inversion H; subst. unfold next_bit. rewrite Es. simpl.
  apply IH; [|lia|lia]. rewrite check_bucket_clock. simpl. assumption.
Qed.

Lemma scan_bits_take40 l bits :
  (40 <= length l <= 2000)%nat -> length bits = 5%nat ->
  scan_bits 0 l bits = scan_bits 0 (take 40 l) bits.
Proof.
  intros Hl Hb. rewrite <- (take_drop 40 l) at 1.
  rewrite scan_bits_app. apply scan_bits_past_end.
  - rewrite length_take. lia.
  - rewrite length_take, length_drop. lia.
  - rewrite scan_bits_length. assumption.
Qed.

End Pipeline.

Section PipelineOfTransaction.

Variable ln : Line.

(** A transaction that returns has sampled 44 pulses; the buckets come
    from the counts of pulses 3 to 42. *)
Lemma acquire_counts fuel m bits m' :
  acquire fuel ln m = Some (bits, m') ->
  exists counts,
    pulse_counts 44 fuel ln (clock m) = Some (counts, clock m')
    /\ bits = scan_bits 0 (map classify (take 40 (drop 2 counts))) zero_bits
    /\ same_debug m' (record_tries counts m).
Proof.
  intros H.
  destruct (acquire_inv _ _ _ _ _ H) as (s1 & ma & s2 & mb & st & H1 & H2 & H3).
  destruct (next_bit_inv _ _ _ _ _ H1) as (c1 & t1 & Hs1 & _ & ->).
  destruct (next_bit_inv _ _ _ _ _ H2) as (c2 & t2 & Hs2 & _ & ->).
  simpl in Hs2.
  apply scan_counts in H3 as (counts & Hp & -> & Hd); [|unfold BIT_TRANSITIONS; lia].
  change (Z.to_nat (BIT_TRANSITIONS - 0)) with 42%nat in Hp.
  cbn [clock record_try set_clock] in Hp.
  pose proof (pulse_counts_length _ _ _ _ _ _ Hp) as Hlen.
  exists (c1 :: c2 :: counts). split; [|split].
  - change 44%nat with (2 + 42)%nat. rewrite pulse_counts_app.
    remember 42%nat as n eqn:En. simpl.
    rewrite Hs1. simpl. rewrite Hs2. simpl. rewrite Hp. reflexivity.
  - change (drop 2 (c1 :: c2 :: counts)) with counts.
    rewrite <- firstn_map. apply scan_bits_take40; [|reflexivity].
    rewrite length_map. lia.
  - eapply same_debug_trans; [exact Hd|]. simpl.
    apply record_tries_same_debug. split; reflexivity.
Qed.

(** And it returns whenever 44 pulses can be sampled. *)
Lemma acquire_of_counts fuel m counts t' :
  pulse_counts 44 fuel ln (clock m) = Some (counts, t') -> (42 <= fuel)%nat ->
  exists m',
    acquire fuel ln m
    = Some (scan_bits 0 (map classify (take 40 (drop 2 counts))) zero_bits, m')
    /\ clock m' = t'.
Proof.
  intros H Hf. change 44%nat with (2 + 42)%nat in H.
  rewrite pulse_counts_app in H. remember 42%nat as n eqn:En42. simpl in H.
  destruct (sample_pulse fuel ln (clock m)) as [[c1 t1]|] eqn:E1; [|discriminate].
  simpl in H.
  destruct (sample_pulse fuel ln t1) as [[c2 t2]|] eqn:E2; [|discriminate].
  simpl in H.
  destruct (pulse_counts n fuel ln t2) as [[cs t3]|] eqn:E3; [|discriminate].
  simpl in H. inversion H; subst.
  pose proof (pulse_counts_length _ _ _ _ _ _ E3) as Hlen.
  destruct (scan_of_counts ln fuel fuel 0 zero_bits (classify c2)
              (record_try c2 (set_clock t2 (record_try c1 (set_clock t1 m))))
              cs t') as (st' & m' & Hscan & Hclock);
    [exact E3 | unfold BIT_TRANSITIONS; lia | exact Hf |].
  exists m'. split; [|assumption].
  unfold acquire, next_bit. rewrite E1. simpl. rewrite E2. simpl.
  rewrite Hscan. simpl. do 2 f_equal.
  rewrite <- firstn_map. apply scan_bits_take40; [|reflexivity].
  rewrite length_map. change (drop 0 cs) with cs. lia.
Qed.

End PipelineOfTransaction.

(** * Frames of bytes *)

Section Bytes.

Lemma bits_of_byte_length b : length (bits_of_byte b) = 8%nat.
Proof. reflexivity. Qed.

Lemma bits_of_byte_bits b : Forall is_bit (bits_of_byte b).
Proof.
  unfold bits_of_byte. apply Forall_forall. intros x Hx.
  apply list_elem_of_In, in_map_iff in Hx as (i & <- & _).
  unfold is_bit. destruct (Z.testbit _ _); auto.
Qed.

(** A long pulse of the test trains is classified 1, a short one 0. *)
Lemma classify_pulses_of_byte b :
  map classify (map Z.of_nat (pulses_of_byte b)) = bits_of_byte b.
Proof.
  unfold pulses_of_byte, bits_of_byte. rewrite !map_map.
  apply map_ext. intros i. destruct (Z.testbit _ _); reflexivity.
Qed.

Lemma classify_frame bytes :
  map classify (map Z.of_nat (concat (map pulses_of_byte bytes)))
  = concat (map bits_of_byte bytes).
Proof.
  induction bytes as [|b bytes IH]; [reflexivity|].
  change (concat (map pulses_of_byte (b :: bytes)))
    with (pulses_of_byte b ++ concat (map pulses_of_byte bytes)).
  rewrite !map_app, IH, classify_pulses_of_byte. reflexivity.
Qed.

(** Reading the eight bits of a byte back gives the byte. *)
Lemma be_value_bits_of_byte b : is_uint8 b -> be_value (bits_of_byte b) = b.
Proof.
  unfold is_uint8. intros Hb.
  assert (Hall : forallb (fun n => be_value (bits_of_byte (Z.of_nat n)) =? Z.of_nat n)
                   (seq 0 256) = true) by (vm_compute; reflexivity).
  rewrite forallb_forall in Hall.
  specialize (Hall (Z.to_nat b)). rewrite Z2Nat.id in Hall by lia.
  apply Z.eqb_eq, Hall, in_seq. lia.
Qed.

(** Five groups of eight bits make the five buckets. *)
Lemma scan_bits_groups g0 g1 g2 g3 g4 :
  length g0 = 8%nat -> length g1 = 8%nat -> length g2 = 8%nat ->
  length g3 = 8%nat -> length g4 = 8%nat ->
  Forall is_bit (g0 ++ g1 ++ g2 ++ g3 ++ g4) ->
  scan_bits 0 (g0 ++ g1 ++ g2 ++ g3 ++ g4) zero_bits
  = [be_value g0; be_value g1; be_value g2; be_value g3; be_value g4].
Proof.
  intros L0 L1 L2 L3 L4 Hbits.
  assert (Hlen : length (g0 ++ g1 ++ g2 ++ g3 ++ g4) = 40%nat)
    by (rewrite !length_app; lia).
  pose proof (scan_bits_buckets _ Hbits ltac:(lia)) as Hk.
  pose proof (scan_bits_length (g0 ++ g1 ++ g2 ++ g3 ++ g4) 0 zero_bits) as Hl.
  assert (Hgrp : forall (k : nat) (pre g post : list Z),
             length pre = (8 * k)%nat -> length g = 8%nat ->
             take 8 (drop (8 * k) (pre ++ g ++ post)) = g).
  { intros k pre g post Hp Hg. rewrite <- Hp, drop_app_length.
    rewrite <- Hg. apply take_app_length. }
  assert (Hlast : forall (k : nat) (pre g : list Z),
             length pre = (8 * k)%nat -> length g = 8%nat ->
             take 8 (drop (8 * k) (pre ++ g)) = g).
  { intros k pre g Hp Hg. rewrite <- Hp, drop_app_length.
    apply take_ge. lia. }
  assert (E0 : take 8 (drop (8 * 0) (g0 ++ g1 ++ g2 ++ g3 ++ g4)) = g0)
    by (apply (Hgrp 0%nat [] g0); simpl; lia).
  assert (E1 : take 8 (drop (8 * 1) (g0 ++ g1 ++ g2 ++ g3 ++ g4)) = g1)
    by (apply (Hgrp 1%nat g0 g1); simpl; lia).
  assert (E2 : take 8 (drop (8 * 2) (g0 ++ g1 ++ g2 ++ g3 ++ g4)) = g2).
  { rewrite (app_assoc g0 g1).
    apply (Hgrp 2%nat (g0 ++ g1) g2); rewrite ?length_app; simpl; lia. }
  assert (E3 : take 8 (drop (8 * 3) (g0 ++ g1 ++ g2 ++ g3 ++ g4)) = g3).
  { rewrite (app_assoc g0 g1), (app_assoc (g0 ++ g1) g2).
    apply (Hgrp 3%nat ((g0 ++ g1) ++ g2) g3); rewrite ?length_app; simpl; lia. }
  assert (E4 : take 8 (drop (8 * 4) (g0 ++ g1 ++ g2 ++ g3 ++ g4)) = g4).
  { rewrite (app_assoc g0 g1), (app_assoc (g0 ++ g1) g2),
      (app_assoc ((g0 ++ g1) ++ g2) g3).
    apply (Hlast 4%nat (((g0 ++ g1) ++ g2) ++ g3) g4);
      rewrite ?length_app; simpl; lia. }
  pose proof (Hk 0%nat ltac:(lia)) as H0. rewrite E0 in H0.
  pose proof (Hk 1%nat ltac:(lia)) as H1. rewrite E1 in H1.
  pose proof (Hk 2%nat ltac:(lia)) as H2. rewrite E2 in H2.
  pose proof (Hk 3%nat ltac:(lia)) as H3. rewrite E3 in H3.
  pose proof (Hk 4%nat ltac:(lia)) as H4. rewrite E4 in H4.
  destruct (scan_bits 0 (g0 ++ g1 ++ g2 ++ g3 ++ g4) zero_bits)
    as [|x0 [|x1 [|x2 [|x3 [|x4 [|]]]]]]; try discriminate.
  simpl in H0, H1, H2, H3, H4. congruence.
Qed.

(** The loop turns the forty bits of five bytes back into the bytes. *)
Lemma scan_bits_bytes b0 b1 b2 b3 b4 :
  is_uint8 b0 -> is_uint8 b1 -> is_uint8 b2 -> is_uint8 b3 -> is_uint8 b4 ->
  scan_bits 0 (concat (map bits_of_byte [b0; b1; b2; b3; b4])) zero_bits
  = [b0; b1; b2; b3; b4].
Proof.
  intros H0 H1 H2 H3 H4.
  change (concat (map bits_of_byte [b0; b1; b2; b3; b4]))
    with (bits_of_byte b0 ++ bits_of_byte b1 ++ bits_of_byte b2
          ++ bits_of_byte b3 ++ bits_of_byte b4 ++ []).
  rewrite app_nil_r.
  rewrite scan_bits_groups; try apply bits_of_byte_length.
  - rewrite !be_value_bits_of_byte by assumption. reflexivity.
  - repeat (apply Forall_app; split); apply bits_of_byte_bits.
Qed.

End Bytes.

(** * The other pins of port B *)

Section OtherPins.

Lemma read_pin_testbit p : read_pin p = Z.b2z (Z.testbit p THERM).
Proof.
  unfold read_pin, THERM, PB0. change (Z.shiftl 1 0) with (Z.ones 1).
  rewrite Z.land_ones by lia. change (2 ^ 1) with 2.
  rewrite <- Z.bit0_mod. destruct (Z.testbit p 0); reflexivity.
Qed.

Variables ln1 ln2 : Line.
Hypothesis Hpin : same_pin ln1 ln2.

Lemma same_pin_read t : read_pin (ln1 t) = read_pin (ln2 t).
Proof. rewrite !read_pin_testbit, (Hpin t). reflexivity. Qed.

Lemma wait_low_same_pin fuel : forall t,
  wait_low fuel ln1 t = wait_low fuel ln2 t.
Proof.
  induction fuel as [|fuel IH]; intros t; simpl; [reflexivity|].
  rewrite same_pin_read, IH. reflexivity.
Qed.

Lemma count_high_same_pin fuel : forall t tries,
  count_high fuel ln1 t tries = count_high fuel ln2 t tries.
Proof.
  induction fuel as [|fuel IH]; intros t tries; simpl; [reflexivity|].
  rewrite same_pin_read, IH. reflexivity.
Qed.

Lemma sample_pulse_same_pin fuel t :
  sample_pulse fuel ln1 t = sample_pulse fuel ln2 t.
Proof.
  unfold sample_pulse. rewrite wait_low_same_pin.
  destruct (wait_low fuel ln2 t); simpl; [apply count_high_same_pin | reflexivity].
Qed.

Lemma next_bit_same_pin fuel m : next_bit fuel ln1 m = next_bit fuel ln2 m.
Proof. unfold next_bit. rewrite sample_pulse_same_pin. reflexivity. Qed.

Lemma scan_same_pin gas : forall fuel c bits st m,
  scan gas fuel ln1 c bits st m = scan gas fuel ln2 c bits st m.
Proof.
  induction gas as [|gas IH]; intros fuel c bits st m; simpl; [reflexivity|].
  destruct (c <? BIT_TRANSITIONS); [|reflexivity].
  rewrite next_bit_same_pin.
  destruct (next_bit fuel ln2 m) as [[s m1]|]; simpl; [apply IH | reflexivity].
Qed.

Lemma acquire_same_pin fuel m : acquire fuel ln1 m = acquire fuel ln2 m.
Proof.
  unfold acquire. rewrite next_bit_same_pin.
  destruct (next_bit fuel ln2 m) as [[s1 ma]|]; simpl; [|reflexivity].
  rewrite next_bit_same_pin.
  destruct (next_bit fuel ln2 ma) as [[s2 mb]|]; simpl; [|reflexivity].
  rewrite scan_same_pin. reflexivity.
Qed.

End OtherPins.

(** * The debug buffer *)

Section DebugBuffer.

(** A run of stores that stays below index 255 writes the counts at
    consecutive cells from the write index on; the statement is about
    the cells inside the buffer. *)
Lemma record_tries_lookup cs : forall m k i,
  try_count m = Z.of_nat k -> (k + length cs <= 255)%nat ->
  (i < length (tries_b m))%nat ->
  tries_b (record_tries cs m) !! i
  = if decide (k <= i < k + length cs)%nat then cs !! (i - k)%nat
    else tries_b m !! i.
Proof.
  induction cs as [|c cs IH]; intros m k i Hk Hmax Hi.
  - destruct (decide (k <= i < k + length [])%nat) as [Hin | _];
      [simpl in Hin; lia | reflexivity].
  - change (length (c :: cs)) with (S (length cs)) in *.
    change (record_tries (c :: cs) m) with (record_tries cs (record_try c m)).
    assert (Hk' : try_count (record_try c m) = Z.of_nat (S k)).
    { simpl. rewrite Hk. rewrite to_uint8_small by (unfold is_uint8; lia). lia. }
    assert (Hi' : (i < length (tries_b (record_try c m)))%nat)
      by (simpl; rewrite length_insert; assumption).
    rewrite (IH (record_try c m) (S k) i Hk' ltac:(lia) Hi').
    cbn [record_try tries_b]. rewrite Hk, Nat2Z.id.
    destruct (decide (S k <= i < S k + length cs)%nat) as [Hin | Hout];
      destruct (decide (k <= i < k + S (length cs))%nat) as [Hin' | Hout'];
      try lia.
    + replace (i - k)%nat with (S (i - S k)) by lia. reflexivity.
    + assert (i = k) as -> by lia.
      rewrite list_lookup_insert_eq by assumption.
      replace (k - k)%nat with 0%nat by lia. reflexivity.
    + apply list_lookup_insert_ne. lia.
Qed.

Lemma record_tries_length cs : forall m,
  length (tries_b (record_tries cs m)) = length (tries_b m).
Proof.
  induction cs as [|c cs IH]; intros m; simpl; [reflexivity|].
  rewrite IH. simpl. apply length_insert.
Qed.

(** The loop of [print_debug] prints the cells of a buffer of the
    right size one by one and never reads past its end. *)
Lemma print_tries_lines cells : forall i pre,
  Z.of_nat (length pre) = i ->
  print_tries (length cells) i (pre ++ cells) = tries_lines i cells.
Proof.
  induction cells as [|v cells IH]; intros i pre Hi; simpl; [reflexivity|].
  unfold print_try. rewrite <- Hi, Nat2Z.id.
  rewrite list_lookup_middle by reflexivity. do 4 f_equal.
  rewrite Hi. replace (pre ++ v :: cells) with ((pre ++ [v]) ++ cells)
    by (rewrite <- app_assoc; reflexivity).
  apply IH. rewrite length_app. simpl. lia.
Qed.

End DebugBuffer.

(** * Port registers *)

Section Registers.

Lemma testbit_bit k n : 0 <= k -> 0 <= n -> Z.testbit (bit k) n = (n =? k).
Proof.
  intros Hk Hn. unfold bit. rewrite Z.shiftl_spec by assumption.
  destruct (n =? k) eqn:E.
  - apply Z.eqb_eq in E. subst. rewrite Z.sub_diag. reflexivity.
  - apply Z.eqb_neq in E. destruct (Z.lt_ge_cases n k) as [Hlt | Hge].
    + apply Z.testbit_neg_r. lia.
    + apply Z.bits_above_log2; simpl; lia.
Qed.

Lemma testbit_to_uint8 z n :
  0 <= n < 8 -> Z.testbit (to_uint8 z) n = Z.testbit z n.
Proof.
  intros Hn. unfold to_uint8. change 256 with (2 ^ 8).
  apply Z.mod_pow2_bits_low. lia.
Qed.

Lemma testbit_set_bits r k n :
  0 <= k -> 0 <= n < 8 ->
  Z.testbit (set_bits r (bit k)) n = (n =? k) || Z.testbit r n.
Proof.
  intros Hk Hn. unfold set_bits.
  rewrite testbit_to_uint8, Z.lor_spec, testbit_bit by lia.
  apply orb_comm.
Qed.

Lemma testbit_clear_bits r k n :
  0 <= k -> 0 <= n < 8 ->
  Z.testbit (clear_bits r (bit k)) n = negb (n =? k) && Z.testbit r n.
Proof.
  intros Hk Hn. unfold clear_bits.
  rewrite testbit_to_uint8, Z.land_spec, Z.lnot_spec, testbit_bit by lia.
  apply andb_comm.
Qed.

Lemma testbit_toggle_bits r k n :
  0 <= k -> 0 <= n < 8 ->
  Z.testbit (toggle_bits r (bit k)) n = xorb (n =? k) (Z.testbit r n).
Proof.
  intros Hk Hn. unfold toggle_bits.
  rewrite testbit_to_uint8, Z.lxor_spec, testbit_bit by lia.
  apply xorb_comm.
Qed.

(** Two 8-bit values with the same eight bits are equal. *)
Lemma uint8_bits_eq a b :
  is_uint8 a -> is_uint8 b ->
  (forall n, 0 <= n < 8 -> Z.testbit a n = Z.testbit b n) -> a = b.
Proof.
  unfold is_uint8. intros Ha Hb H.
  rewrite <- (Z.mod_small a (2 ^ 8)), <- (Z.mod_small b (2 ^ 8))
    by (change (2 ^ 8) with 256; lia).
  apply Z.bits_inj'. intros n Hn.
  destruct (Z.lt_ge_cases n 8) as [Hlt | Hge].
  - rewrite !Z.mod_pow2_bits_low by lia. apply H. lia.
  - rewrite !Z.mod_pow2_bits_high by lia. reflexivity.
Qed.

Lemma toggle_twice r k :
  0 <= k -> is_uint8 r ->
  toggle_bits (toggle_bits r (bit k)) (bit k) = r.
Proof.
  intros Hk Hr. apply uint8_bits_eq; [apply is_uint8_to_uint8 | assumption |].
  intros n Hn. rewrite !testbit_toggle_bits by lia.
  destruct (n =? k), (Z.testbit r n); reflexivity.
Qed.

End Registers.

(** * blink *)

Section Blink.

Lemma after_blinks_0 p : after_blinks 0 p = p.
Proof.
  destruct p. unfold after_blinks. simpl. f_equal; [lia | apply app_nil_r].
Qed.

Lemma blink_once_after p :
  is_uint8 (PORTB p) -> blink_once p = after_blinks 1 p.
Proof.
  intros Hp. unfold blink_once, after_blinks, write_PORTB, delay_ms. simpl.
  rewrite toggle_twice by (unfold LED, PB1; lia || assumption).
  f_equal; [lia|]. rewrite <- app_assoc. reflexivity.
Qed.

Lemma after_blinks_succ k p :
  after_blinks k (after_blinks 1 p) = after_blinks (S k) p.
Proof.
  unfold after_blinks. simpl. f_equal; [lia|].
  rewrite <- !app_assoc. reflexivity.
Qed.

(** The loop runs [times + 1 - i] rounds and returns, as long as the
    counter cannot leave the range of [int]. *)
Lemma blink_from_rounds k : forall gas times i p,
  times + 1 - i = Z.of_nat k -> -32768 <= i -> times < 32767 ->
  is_uint8 (PORTB p) ->
  blink_from gas times i p
  = if decide (k <= gas)%nat then Some (after_blinks k p) else None.
Proof.
  induction k as [|k IH]; intros gas times i p Hk Hi Ht Hp.
  - assert (E : (i <=? times) = false) by (apply Z.leb_gt; lia).
    destruct gas; simpl; rewrite E, after_blinks_0; reflexivity.
  - assert (E : (i <=? times) = true) by (apply Z.leb_le; lia).
    destruct gas as [|gas]; simpl; rewrite E; [reflexivity|].
    rewrite to_int_small by lia.
    rewrite blink_once_after by assumption.
    rewrite (IH gas times (i + 1) (after_blinks 1 p)); try lia; [|assumption].
    rewrite after_blinks_succ.
    destruct (decide (k <= gas)%nat), (decide (S k <= S gas)%nat);
      try reflexivity; lia.
Qed.

Lemma after_blinks_writes k p :
  is_uint8 (PORTB p) ->
  Forall (same_but_bit LED (PORTB p))
    (concat (replicate k [toggle_bits (PORTB p) (bit LED); PORTB p])).
Proof.
  intros Hp. induction k as [|k IH]; simpl; [constructor|].
  constructor; [|constructor; [|assumption]].
  - intros n Hn Hne. rewrite testbit_toggle_bits by (unfold LED, PB1; lia).
    destruct (n =? LED) eqn:E; [apply Z.eqb_eq in E; contradiction|].
    reflexivity.
  - intros n Hn Hne. reflexivity.
Qed.

End Blink.

(** * The wake sequence *)

Section Wake.

Lemma wake_DDRB p n :
  0 <= n < 8 ->
  Z.testbit (DDRB (wake p)) n
  = if n =? THERM then false else Z.testbit (DDRB p) n.
Proof.
  intros Hn. unfold wake. simpl.
  rewrite testbit_clear_bits, testbit_set_bits by (unfold THERM, PB0; lia).
  destruct (n =? THERM); reflexivity.
Qed.

Lemma wake_PORTB p n :
  0 <= n < 8 ->
  Z.testbit (PORTB (wake p)) n
  = if n =? THERM then true else Z.testbit (PORTB p) n.
Proof.
  intros Hn. unfold wake. simpl.
  rewrite testbit_set_bits, testbit_clear_bits by (unfold THERM, PB0; lia).
  destruct (n =? THERM); reflexivity.
Qed.

Lemma wake_uint8 p : is_uint8 (DDRB (wake p)) /\ is_uint8 (PORTB (wake p)).
Proof. unfold wake. simpl. split; apply is_uint8_to_uint8. Qed.

Lemma read_therm_io_inv fuel ln p m r p' m' out :
  read_therm_io fuel ln p m = Some (r, p', m', out) ->
  read_therm fuel ln m = Some (r, m')
  /\ p' = set_irq true (wake p) /\ out = print_debug r m'.
Proof.
  unfold read_therm_io. intros H.
  destruct (read_therm fuel ln m) as [[r0 m0]|]; [|discriminate].
  simpl in H. inversion H; subst. auto.
Qed.

End Wake.

(** * The loop of main *)

Section MainLoop.

Variable ln : Line.

Lemma main_pass_inv fuel p m r p' m' out :
  main_pass fuel ln p m = Some (r, p', m', out) ->
  is_uint8 (PORTB p) ->
  p' = set_irq true (wake (delay_ms 2000 (after_blinks 3 p)))
  /\ read_therm fuel ln m = Some (r, m')
  /\ out = print_debug r m'.
Proof.
  unfold main_pass, blink. intros H Hp.
  rewrite (blink_from_rounds 3 fuel 3 1 p) in H by (lia || assumption).
  destruct (decide (3 <= fuel)%nat); [|discriminate]. simpl in H.
  apply read_therm_io_inv in H as (Hr & -> & ->). auto.
Qed.

(** What every pass keeps and what it adds. *)
Lemma main_passes_inv n : forall fuel p m rs p' m' out,
  main_passes n fuel ln p m = Some (rs, p', m', out) ->
  is_uint8 (DDRB p) -> is_uint8 (PORTB p) ->
  length rs = n
  /\ waited_ms p' = waited_ms p + 2605 * Z.of_nat n
  /\ CLKPR p' = CLKPR p
  /\ (forall k, 0 <= k < 8 -> k <> THERM ->
        Z.testbit (DDRB p') k = Z.testbit (DDRB p) k
        /\ Z.testbit (PORTB p') k = Z.testbit (PORTB p) k)
  /\ ((0 < n)%nat ->
        Z.testbit (DDRB p') THERM = false
        /\ Z.testbit (PORTB p') THERM = true /\ irq p' = true).
Proof.
  induction n as [|n IH]; intros fuel p m rs p' m' out H Hd Hp.
  - simpl in H. inversion H; subst. simpl. rewrite !Z.add_0_r.
    repeat split; try reflexivity; lia.
  - simpl in H.
    destruct (main_pass fuel ln p m) as [[[[r p1] m1] out1]|] eqn:E1;
      [|discriminate].
    simpl in H.
    destruct (main_passes n fuel ln p1 m1) as [[[[rs1 p2] m2] out2]|] eqn:E2;
      [|discriminate].
    simpl in H. inversion H; subst. clear H.
    destruct (main_pass_inv _ _ _ _ _ _ _ E1 Hp) as (-> & Hr & _).
    destruct (wake_uint8 (delay_ms 2000 (after_blinks 3 p))) as [Hd1 Hp1].
    destruct (IH _ _ _ _ _ _ _ E2 Hd1 Hp1) as (Hl & Hw & Hc & Hk & Hth).
    split; [simpl; congruence|].
    split; [rewrite Hw; simpl; lia|].
    split; [rewrite Hc; reflexivity|].
    split.
    + intros k Hk8 Hne. destruct (Hk k Hk8 Hne) as [Hkd Hkp].
      rewrite Hkd, Hkp. cbn [set_irq DDRB PORTB].
      rewrite wake_DDRB, wake_PORTB by assumption.
      destruct (k =? THERM) eqn:E; [apply Z.eqb_eq in E; contradiction|].
      split; reflexivity.
    + intros _. destruct n as [|n].
      * simpl in E2. inversion E2; subst. cbn [set_irq DDRB PORTB irq].
        rewrite wake_DDRB, wake_PORTB by (unfold THERM, PB0; lia).
        repeat split.
      * apply Hth. lia.
Qed.

End MainLoop.

Section FramePulses.

Lemma pulses_of_byte_short b : Forall (fun c => (c <= 255)%nat) (pulses_of_byte b).
Proof.
  unfold pulses_of_byte. apply Forall_forall. intros c Hc.
  apply list_elem_of_In, in_map_iff in Hc as (i & <- & _).
  destruct (Z.testbit _ _); lia.
Qed.

Lemma frame_pulses_short bytes :
  Forall (fun c => (c <= 255)%nat) (frame_pulses bytes).
Proof.
  unfold frame_pulses. apply Forall_app. split.
  - repeat constructor; lia.
  - induction bytes as [|b bytes IH]; [constructor|].
    change (concat (map pulses_of_byte (b :: bytes)))
      with (pulses_of_byte b ++ concat (map pulses_of_byte bytes)).
    apply Forall_app. split; [apply pulses_of_byte_short | assumption].
Qed.

Lemma tries_lines_no_read_past cells : forall i j,
  ~ In (ReadPast j) (tries_lines i cells).
Proof.
  induction cells as [|v cells IH]; intros i j H; simpl in H; [assumption|].
  destruct H as [H | [H | [H | [H | H]]]]; try discriminate.
  eapply IH. eassumption.
Qed.

End FramePulses.

(** * Further results *)

(** X1: only the sensor pin of port B is looked at: two lines on which
    bit [THERM] of PINB reads the same give the same outcome of
    [read_therm], whatever the other seven pins do. *)
Theorem read_therm_ignores_other_pins (ln1 ln2 : Line) (fuel : nat)
    (m : Machine) :
  same_pin ln1 ln2 -> read_therm fuel ln1 m = read_therm fuel ln2 m.
Proof.
  intros H. unfold read_therm. rewrite (acquire_same_pin ln1 ln2 H).
  reflexivity.
Qed.

(** X3: a transaction that returns has sampled 44 pulses in a row; its
    reading is computed from the counts of pulses 3 to 42 alone:
    classified, folded into the buckets and turned into the fields. *)
Theorem read_therm_is_pipeline (fuel : nat) (ln : Line) (m : Machine)
    (r : RHTresult) (m' : Machine) :
  read_therm fuel ln m = Some (r, m') ->
  exists counts,
    pulse_counts 44 fuel ln (clock m) = Some (counts, clock m')
    /\ r = finish (scan_bits 0 (map classify (take 40 (drop 2 counts)))
                     zero_bits).
Proof.
  intros H. destruct (read_therm_inv _ _ _ _ _ H) as (bits & Ha & ->).
  destruct (acquire_counts _ _ _ _ _ Ha) as (counts & Hp & -> & _).
  exists counts. auto.
Qed.

(** X4: conversely [read_therm] returns as soon as 44 pulses can be
    sampled from the line, whatever their counts, and leaves the clock
    after the last of them. *)
Theorem read_therm_returns_on_44_pulses (fuel : nat) (ln : Line)
    (m : Machine) (counts : list Z) (t' : nat) :
  pulse_counts 44 fuel ln (clock m) = Some (counts, t') ->
  (42 <= fuel)%nat ->
  exists m',
    read_therm fuel ln m
    = Some (finish (scan_bits 0 (map classify (take 40 (drop 2 counts)))
                      zero_bits), m')
    /\ clock m' = t'.
Proof.
  intros H Hf.
  destruct (acquire_of_counts ln fuel m counts t' H Hf) as (m' & Ha & Hc).
  exists m'. unfold read_therm. rewrite Ha. auto.
Qed.

Lemma pulse_counts_app_some n1 n2 fuel ln t a t1 b t2 :
  pulse_counts n1 fuel ln t = Some (a, t1) ->
  pulse_counts n2 fuel ln t1 = Some (b, t2) ->
  pulse_counts (n1 + n2) fuel ln t = Some (a ++ b, t2).
Proof.
  intros H1 H2. rewrite pulse_counts_app, H1. simpl. rewrite H2. reflexivity.
Qed.

(** X5: on a bus with a pull-up, the frame of five bytes sent as two
    preamble pulses and forty data pulses, most significant bit first,
    is decoded into these five bytes: [read_therm] returns the fields
    of the bytes, 514 reads after the end of the frame. *)
Theorem read_therm_decodes_frame (b0 b1 b2 b3 b4 : Z) (ln : Line)
    (m : Machine) (fuel : nat) :
  is_uint8 b0 -> is_uint8 b1 -> is_uint8 b2 -> is_uint8 b3 -> is_uint8 b4 ->
  same_view ln (clock m) (line_idle_high (frame_pulses [b0; b1; b2; b3; b4])) 0 ->
  (257 <= fuel)%nat ->
  exists m',
    read_therm fuel ln m = Some (finish [b0; b1; b2; b3; b4], m')
    /\ humidity (finish [b0; b1; b2; b3; b4]) = Z.lor (Z.shiftl b0 8) b1
    /\ temperature (finish [b0; b1; b2; b3; b4]) = Z.lor (Z.shiftl b2 8) b3
    /\ checksum (finish [b0; b1; b2; b3; b4])
       = (if b0 + b1 + b2 + b3 =? b4 then 1 else 0)
    /\ clock m'
       = (clock m + train_reads (frame_pulses [b0; b1; b2; b3; b4]) + 514)%nat.
Proof.
  intros H0 H1 H2 H3 H4 Hv Hf.
  set (bytes := [b0; b1; b2; b3; b4]) in *.
  set (fp := frame_pulses bytes) in *.
  assert (Hlen : length fp = 42%nat) by reflexivity.
  unfold line_idle_high in Hv. rewrite <- (app_nil_r fp) in Hv.
  destruct (pulse_counts_train 1 fp [] ln (clock m) fuel Hv
              (frame_pulses_short bytes) Hf) as [Hp Hrest].
  rewrite Hlen in Hp.
  assert (Hhigh : same_view ln (clock m + train_reads fp) stuck_high 0).
  { eapply same_view_trans; [exact Hrest|]. apply idle_high_view. }
  pose proof (pulse_counts_high_for_good 2 ln _ fuel Hhigh Hf) as Hp2.
  pose proof (pulse_counts_app_some _ _ _ _ _ _ _ _ _ Hp Hp2) as H44.
  change (42 + 2)%nat with 44%nat in H44.
  destruct (acquire_of_counts ln fuel m _ _ H44 ltac:(lia)) as (m' & Ha & Hc).
  assert (Hbits : scan_bits 0
            (map classify
               (take 40 (drop 2 (map Z.of_nat fp ++ replicate 2 0))))
            zero_bits = bytes).
  { change (map Z.of_nat fp)
      with (40 :: 40 :: map Z.of_nat (concat (map pulses_of_byte bytes))).
    change (drop 2 ((40 :: 40 :: map Z.of_nat (concat (map pulses_of_byte bytes)))
                    ++ replicate 2 0))
      with (map Z.of_nat (concat (map pulses_of_byte bytes)) ++ replicate 2 0).
    rewrite take_app_length' by reflexivity.
    rewrite classify_frame. apply scan_bits_bytes; assumption. }
  rewrite Hbits in Ha.
  exists m'. unfold read_therm. rewrite Ha. simpl mbind.
  destruct (finish_fields b0 b1 b2 b3 b4 H0 H1 H2 H3) as (Hh & Ht & Hk).
  split; [reflexivity|]. split; [exact Hh|]. split; [exact Ht|].
  split; [exact Hk|]. rewrite Hc. lia.
Qed.

(** X6: on a bus that idles low, a train of fewer than 44 well-formed
    pulses leaves [read_therm] waiting for ever: it returns for no
    budget of polls. *)
Theorem read_therm_hangs_on_short_train (cs : list nat) (ln : Line)
    (m : Machine) (fuel : nat) :
  same_view ln (clock m) (line_of_counts cs) 0 ->
  Forall (fun c => (c <= 255)%nat) cs -> (length cs < 44)%nat ->
  read_therm fuel ln m = None.
Proof.
  intros Hv Hcs Hlen.
  destruct (read_therm fuel ln m) as [[r m']|] eqn:E; [|reflexivity].
  destruct (read_therm_inv _ _ _ _ _ E) as (bits & Ha & _).
  destruct (acquire_counts _ _ _ _ _ Ha) as (counts & Hp & _).
  change (line_of_counts cs)
    with (line_of_levels 0 (concat (map pulse_levels cs))) in Hv.
  rewrite (pulse_counts_short_train cs 44 ln (clock m) fuel Hv Hcs Hlen) in Hp.
  discriminate.
Qed.

(** X8: with a buffer of 43 cells, [print_debug] prints a header, then
    every cell of [tries_b] once, in order, after its index, then the
    three fields of the reading; it never reads past the end of the
    buffer. *)
Theorem print_debug_lists_buffer (r : RHTresult) (m : Machine) :
  length (tries_b m) = 43%nat ->
  print_debug r m
  = [PrintString ("Bits:" +:+ crlf)]
    ++ tries_lines 0 (tries_b m)
    ++ [PrintString (crlf +:+ crlf);
        PrintString "Temperature: "; PrintWord (temperature r);
        PrintString crlf;
        PrintString "Humidity: "; PrintWord (humidity r);
        PrintString crlf;
        PrintString "Checksum: "; PrintByte (checksum r);
        PrintString (crlf +:+ crlf)]
  /\ forall i, ~ In (ReadPast i) (print_debug r m).
Proof.
  intros Hlen.
  assert (E : print_tries 43 0 (tries_b m) = tries_lines 0 (tries_b m)).
  { rewrite <- Hlen. apply (print_tries_lines (tries_b m) 0 []). reflexivity. }
  unfold print_debug. rewrite E. split; [reflexivity|].
  intros i Hin. apply in_app_or in Hin as [Hin | Hin].
  - destruct Hin as [Hin | []]. discriminate.
  - apply in_app_or in Hin as [Hin | Hin].
    + exact (tries_lines_no_read_past _ _ _ Hin).
    + repeat (destruct Hin as [Hin | Hin]; [discriminate|]). exact Hin.
Qed.

(** X9: for [times] below 32767, [blink] returns after
    [max times 0] rounds: PORTB is as before, every value written in
    between differs from it in the LED bit at most, each round writes
    PORTB twice and waits 200 ms; for [times] of zero or less nothing
    is written. *)
Theorem blink_restores_port (gas : nat) (times : Z) (p : Ports) :
  -32768 <= times < 32767 -> is_uint8 (PORTB p) ->
  (Z.to_nat times <= gas)%nat ->
  blink gas times p = Some (after_blinks (Z.to_nat times) p)
  /\ PORTB (after_blinks (Z.to_nat times) p) = PORTB p
  /\ waited_ms (after_blinks (Z.to_nat times) p)
     = waited_ms p + 200 * Z.max times 0
  /\ exists written,
       portb_writes (after_blinks (Z.to_nat times) p)
       = portb_writes p ++ written
       /\ length written = (2 * Z.to_nat times)%nat
       /\ Forall (same_but_bit LED (PORTB p)) written.
Proof.
  intros Ht Hp Hg. split; [|split; [reflexivity|split]].
  - unfold blink. destruct (Z.le_gt_cases 0 times) as [Hpos | Hneg].
    + rewrite (blink_from_rounds (Z.to_nat times) gas times 1 p)
        by (lia || assumption).
      destruct (decide (Z.to_nat times <= gas)%nat); [reflexivity | lia].
    + replace (Z.to_nat times) with 0%nat by lia. rewrite after_blinks_0.
      assert (E : (1 <=? times) = false) by (apply Z.leb_gt; lia).
      destruct gas; simpl; rewrite E; reflexivity.
  - simpl. lia.
  - eexists. split; [reflexivity|]. split.
    + induction (Z.to_nat times) as [|k IH]; simpl; [reflexivity|]. lia.
    + apply after_blinks_writes. assumption.
Qed.

(** X10: whatever the ports were, a call of [read_therm] that returns
    leaves the sensor pin as an input with its pull-up on, every other
    bit of DDRB and PORTB as it was, the interrupts enabled, even when
    they were disabled at the call, and has waited 5 ms; the pin was
    driven low, then high, by the two writes to PORTB. *)
Theorem read_therm_io_ports (fuel : nat) (ln : Line) (p : Ports)
    (m : Machine) (r : RHTresult) (p' : Ports) (m' : Machine)
    (out : list Out) :
  read_therm_io fuel ln p m = Some (r, p', m', out) ->
  (forall n, 0 <= n < 8 ->
     Z.testbit (DDRB p') n = (if n =? THERM then false else Z.testbit (DDRB p) n)
     /\ Z.testbit (PORTB p') n
        = (if n =? THERM then true else Z.testbit (PORTB p) n))
  /\ irq p' = true
  /\ waited_ms p' = waited_ms p + 5
  /\ CLKPR p' = CLKPR p
  /\ exists low high,
       portb_writes p' = portb_writes p ++ [low; high]
       /\ Z.testbit low THERM = false /\ Z.testbit high THERM = true
       /\ high = PORTB p'.
Proof.
  intros H. apply read_therm_io_inv in H as (_ & -> & _).
  split; [|split; [reflexivity|split; [reflexivity|split; [reflexivity|]]]].
  - intros n Hn. cbn [set_irq DDRB PORTB].
    rewrite wake_DDRB, wake_PORTB by assumption. split; reflexivity.
  - exists (clear_bits (PORTB p) (bit THERM)),
      (set_bits (clear_bits (PORTB p) (bit THERM)) (bit THERM)).
    split; [|split; [|split]].
    + unfold wake. cbn [set_irq write_DDRB write_PORTB delay_ms portb_writes PORTB].
      rewrite <- app_assoc. reflexivity.
    + rewrite testbit_clear_bits by (unfold THERM, PB0; lia). reflexivity.
    + rewrite testbit_set_bits by (unfold THERM, PB0; lia). reflexivity.
    + reflexivity.
Qed.

(** X12: the validity field of a reading is 0 or 1; it is 1 exactly
    when the plain sum of the first four buckets equals the fifth, so
    a frame it accepts also passes the sum modulo 256, and a frame
    that passes the sum modulo 256 is accepted exactly when the plain
    sum is below 256. *)
Theorem validity_flag_is_sound (fuel : nat) (ln : Line) (m : Machine)
    (r : RHTresult) (m' : Machine) :
  read_therm fuel ln m = Some (r, m') ->
  exists b0 b1 b2 b3 b4,
    acquire fuel ln m = Some ([b0; b1; b2; b3; b4], m')
    /\ is_bit (checksum r)
    /\ (checksum r = 1 <-> b0 + b1 + b2 + b3 = b4)
    /\ (checksum r = 1 -> (b0 + b1 + b2 + b3) mod 256 = b4)
    /\ ((b0 + b1 + b2 + b3) mod 256 = b4 ->
        (checksum r = 1 <-> b0 + b1 + b2 + b3 < 256)).
Proof.
  intros H. destruct (read_therm_inv _ _ _ _ _ H) as (bits & Ha & ->).
  destruct (acquire_bytes _ _ _ _ _ Ha)
    as (b0 & b1 & b2 & b3 & b4 & -> & H0 & H1 & H2 & H3 & H4).
  exists b0, b1, b2, b3, b4. split; [assumption|].
  destruct (finish_fields b0 b1 b2 b3 b4 H0 H1 H2 H3) as (_ & _ & Hc).
  rewrite Hc. unfold is_uint8 in *.
  destruct (b0 + b1 + b2 + b3 =? b4) eqn:E.
  - apply Z.eqb_eq in E.
    split; [right; reflexivity|]. split; [tauto|].
    split; [intros _; rewrite E; apply Z.mod_small; lia|].
    intros _. split; [lia | reflexivity].
  - apply Z.eqb_neq in E.
    split; [left; reflexivity|]. split; [split; [discriminate | contradiction]|].
    split; [discriminate|].
    intros Hmod. split; [discriminate|]. intros Hlt.
    rewrite Z.mod_small in Hmod by lia. contradiction.
Qed.

(** * The further results at concrete inputs *)

Lemma read_therm_ignores_other_pins_witness :
  same_pin (line_of_counts train44) (fun t => Z.lor (line_of_counts train44 t) 2)
  /\ read_therm 300 (line_of_counts train44) boot
     = read_therm 300 (fun t => Z.lor (line_of_counts train44 t) 2) boot.
Proof.
  assert (H : same_pin (line_of_counts train44)
                (fun t => Z.lor (line_of_counts train44 t) 2)).
  { intros t. unfold THERM, PB0. rewrite Z.lor_spec. simpl.
    rewrite orb_false_r. reflexivity. }
  split; [exact H|].
  exact (read_therm_ignores_other_pins _ _ 300 boot H).
Defined.

Lemma read_therm_is_pipeline_witness :
  exists r m',
    read_therm 300 (line_of_counts train44) boot = Some (r, m')
    /\ exists counts,
         pulse_counts 44 300 (line_of_counts train44) (clock boot)
         = Some (counts, clock m')
         /\ r = finish (scan_bits 0 (map classify (take 40 (drop 2 counts)))
                          zero_bits).
Proof.
  eexists. eexists. split; [vm_compute; reflexivity|].
  apply (read_therm_is_pipeline 300 (line_of_counts train44) boot).
  vm_compute. reflexivity.
Defined.

Lemma read_therm_returns_on_44_pulses_witness :
  exists counts t',
    pulse_counts 44 300 (line_of_counts train44) (clock boot) = Some (counts, t')
    /\ exists m',
         read_therm 300 (line_of_counts train44) boot
         = Some (finish (scan_bits 0 (map classify (take 40 (drop 2 counts)))
                           zero_bits), m')
         /\ clock m' = t'.
Proof.
  eexists. eexists. split; [vm_compute; reflexivity|].
  apply (read_therm_returns_on_44_pulses 300 (line_of_counts train44) boot);
    [vm_compute; reflexivity | lia].
Defined.

Lemma read_therm_decodes_frame_witness :
  exists m',
    read_therm 300 (line_idle_high (frame_pulses [1; 144; 0; 200; 89])) boot
    = Some (finish [1; 144; 0; 200; 89], m')
    /\ humidity (finish [1; 144; 0; 200; 89]) = Z.lor (Z.shiftl 1 8) 144
    /\ temperature (finish [1; 144; 0; 200; 89]) = Z.lor (Z.shiftl 0 8) 200
    /\ checksum (finish [1; 144; 0; 200; 89])
       = (if 1 + 144 + 0 + 200 =? 89 then 1 else 0)
    /\ clock m'
       = (clock boot + train_reads (frame_pulses [1; 144; 0; 200; 89]%Z)
          + 514)%nat.
Proof.
  apply (read_therm_decodes_frame 1 144 0 200 89
           (line_idle_high (frame_pulses [1; 144; 0; 200; 89])) boot 300);
    try (unfold is_uint8; lia).
  intros k. reflexivity.
Defined.

Lemma read_therm_hangs_on_short_train_witness :
  length (frame_pulses [1; 144; 0; 200; 89]) = 42%nat
  /\ read_therm 4000 (line_of_counts (frame_pulses [1; 144; 0; 200; 89])) boot
     = None.
Proof.
  split; [reflexivity|].
  apply (read_therm_hangs_on_short_train (frame_pulses [1; 144; 0; 200; 89])).
  - intros k. reflexivity.
  - apply (bool_decide_unpack _). vm_compute. exact I.
  - vm_compute. lia.
Defined.

Lemma print_debug_lists_buffer_witness :
  length (tries_b boot) = 43%nat
  /\ ~ In (ReadPast 42)
         (print_debug {| temperature := 200; humidity := 400; checksum := 0 |}
            boot).
Proof.
  split; [reflexivity|].
  exact (proj2 (print_debug_lists_buffer
                  {| temperature := 200; humidity := 400; checksum := 0 |}
                  boot eq_refl) 42).
Defined.

Lemma blink_restores_port_witness :
  blink 3 3 (mkPorts 2 0 0 true 0 [])
  = Some (mkPorts 2 0 0 true 600 [2; 0; 2; 0; 2; 0]).
Proof.
  refine (eq_trans
            (proj1 (blink_restores_port 3 3 (mkPorts 2 0 0 true 0 []) _ _ _)) _).
  - lia.
  - unfold is_uint8. simpl. lia.
  - simpl. lia.
  - reflexivity.
Defined.

Lemma read_therm_io_ports_witness :
  exists r p' m' out,
    read_therm_io 300 (line_of_counts train44) (mkPorts 2 2 0 true 0 []) boot
    = Some (r, p', m', out)
    /\ DDRB p' = 2 /\ PORTB p' = 3 /\ irq p' = true /\ waited_ms p' = 5.
Proof.
  do 4 eexists. split; [vm_compute; reflexivity|].
  match goal with
  | |- DDRB ?q = _ /\ _ =>
      pose proof (read_therm_io_ports 300 (line_of_counts train44)
                    (mkPorts 2 2 0 true 0 []) boot _ q _ _
                    ltac:(vm_compute; reflexivity)) as (_ & Hi & Hw & _)
  end.
  split; [reflexivity|]. split; [reflexivity|].
  split; [exact Hi | exact Hw].
Defined.

Lemma validity_flag_is_sound_witness :
  exists r m',
    read_therm 300 (line_of_counts train44) boot = Some (r, m')
    /\ exists b0 b1 b2 b3 b4,
         acquire 300 (line_of_counts train44) boot
         = Some ([b0; b1; b2; b3; b4], m')
         /\ is_bit (checksum r)
         /\ (checksum r = 1 <-> b0 + b1 + b2 + b3 = b4)
         /\ (checksum r = 1 -> (b0 + b1 + b2 + b3) mod 256 = b4)
         /\ ((b0 + b1 + b2 + b3) mod 256 = b4 ->
             (checksum r = 1 <-> b0 + b1 + b2 + b3 < 256)).
Proof.
  eexists. eexists. split; [vm_compute; reflexivity|].
  apply (validity_flag_is_sound 300 (line_of_counts train44) boot).
  vm_compute. reflexivity.
Defined.

(** * The debug globals under any layout *)

Section Layouts.

Variable sp : Spill.
Variable ln : Line.

(** Inside the buffer the layout plays no part. *)
Lemma record_try_at_in_range c m :
  (Z.to_nat (try_count m) < length (tries_b m))%nat ->
  record_try_at sp c m = record_try c m.
Proof.
  intros H. unfold record_try_at.
  destruct (decide (Z.to_nat (try_count m) < length (tries_b m))%nat);
    [reflexivity | contradiction].
Qed.

Lemma record_try_at_clock c m : clock (record_try_at sp c m) = clock m.
Proof.
  unfold record_try_at. destruct (decide _); reflexivity.
Qed.

Lemma record_try_at_faults c m f :
  In f (faults m) -> In f (faults (record_try_at sp c m)).
Proof.
  intros H. unfold record_try_at, record_try.
  destruct (decide _); simpl; [assumption|]. apply in_or_app. auto.
Qed.

(** Past the end the store is recorded with its index. *)
Lemma record_try_at_overrun c m :
  (length (tries_b m) <= Z.to_nat (try_count m))%nat ->
  In (OutOfBounds Tries_b (try_count m)) (faults (record_try_at sp c m)).
Proof.
  intros H. unfold record_try_at.
  destruct (decide (Z.to_nat (try_count m) < length (tries_b m))%nat); [lia|].
  simpl. apply in_or_app. right. left. reflexivity.
Qed.

Lemma record_try_at_same_debug c m1 m2 :
  same_debug m1 m2 ->
  same_debug (record_try_at sp c m1) (record_try_at sp c m2).
Proof.
  intros [Hb Hc]. unfold record_try_at. rewrite Hb, Hc.
  destruct (decide _); [|split; reflexivity].
  unfold same_debug, record_try. simpl. rewrite Hb, Hc. auto.
Qed.

Lemma record_tries_at_same_debug cs : forall m1 m2,
  same_debug m1 m2 ->
  same_debug (record_tries_at sp cs m1) (record_tries_at sp cs m2).
Proof.
  induction cs as [|c cs IH]; intros m1 m2 H; simpl; [assumption|].
  apply IH, record_try_at_same_debug, H.
Qed.

Lemma record_tries_at_app a : forall b m,
  record_tries_at sp (a ++ b) m = record_tries_at sp b (record_tries_at sp a m).
Proof.
  induction a as [|c a IH]; intros b m; simpl; [reflexivity | apply IH].
Qed.

Lemma record_tries_try_count cs : forall m k,
  try_count m = Z.of_nat k -> (k + length cs <= 255)%nat ->
  try_count (record_tries cs m) = Z.of_nat (k + length cs).
Proof.
  induction cs as [|c cs IH]; intros m k Hk Hmax; simpl.
  - rewrite Hk. f_equal. lia.
  - simpl in Hmax. rewrite (IH (record_try c m) (S k)); [f_equal; lia | | lia].
    simpl. rewrite Hk, to_uint8_small by (unfold is_uint8; lia). lia.
Qed.

(** As long as the stores stay inside the buffer the layout plays no
    part in a run of them either. *)
Lemma record_tries_at_in_range cs : forall m k,
  try_count m = Z.of_nat k ->
  (k + length cs <= length (tries_b m))%nat ->
  (length (tries_b m) <= 255)%nat ->
  record_tries_at sp cs m = record_tries cs m.
Proof.
  induction cs as [|c cs IH]; intros m k Hk Hin Hmax; simpl; [reflexivity|].
  simpl in Hin.
  rewrite record_try_at_in_range by (rewrite Hk, Nat2Z.id; lia).
  apply (IH (record_try c m) (S k)).
  - simpl. rewrite Hk, to_uint8_small by (unfold is_uint8; lia). lia.
  - simpl. rewrite length_insert. lia.
  - simpl. rewrite length_insert. assumption.
Qed.

(** Forty-three stores from index 0 fill a buffer of 43 cells. *)
Lemma record_tries_fill cs m :
  try_count m = 0 -> length (tries_b m) = 43%nat -> length cs = 43%nat ->
  tries_b (record_tries cs m) = cs /\ try_count (record_tries cs m) = 43.
Proof.
  intros Ht Hlen Hc. split.
  - apply list_eq. intros i.
    destruct (decide (i < 43)%nat) as [Hi | Hi].
    + rewrite (record_tries_lookup cs m 0 i) by (rewrite ?Hlen; simpl; lia).
      destruct (decide (0 <= i < 0 + length cs)%nat) as [_ | Hn]; [|lia].
      f_equal. lia.
    + rewrite !lookup_ge_None_2; [reflexivity | lia |].
      rewrite record_tries_length. lia.
  - rewrite (record_tries_try_count cs m 0) by (simpl; lia).
    rewrite Hc. reflexivity.
Qed.

Lemma next_bit_at_inv fuel m s m' :
  next_bit_at sp fuel ln m = Some (s, m') ->
  exists tries t2,
    sample_pulse fuel ln (clock m) = Some (tries, t2)
    /\ s = classify tries /\ m' = record_try_at sp tries (set_clock t2 m).
Proof.
  unfold next_bit_at. intros H.
  destruct (sample_pulse fuel ln (clock m)) as [[tries t2]|]; [|discriminate].
  simpl in H. inversion H; subst. eauto.
Qed.

(** The loop under any layout: the same pulses, the same buckets, and
    the debug globals of the stores of the counts. *)
Lemma scan_at_counts gas : forall fuel c bits st m bits' st' m',
  scan_at sp gas fuel ln c bits st m = Some (bits', st', m') ->
  0 <= c <= BIT_TRANSITIONS ->
  exists counts,
    pulse_counts (Z.to_nat (BIT_TRANSITIONS - c)) fuel ln (clock m)
    = Some (counts, clock m')
    /\ bits' = scan_bits c (map classify counts) bits
    /\ same_debug m' (record_tries_at sp counts m).
Proof.
  induction gas as [|gas IH]; intros fuel c bits st m bits' st' m' H Hc;
    simpl in H; destruct (c <? BIT_TRANSITIONS) eqn:E;
    try discriminate;
    try (apply Z.ltb_ge in E; inversion H; subst; exists [];
         replace (BIT_TRANSITIONS - c) with 0 by lia;
         repeat split; reflexivity).
  apply Z.ltb_lt in E.
  destruct (next_bit_at sp fuel ln m) as [[s m1]|] eqn:En; [|discriminate].
  simpl in H.
  destruct (next_bit_at_inv _ _ _ _ En) as (tries & t2 & Hs & -> & ->).
  apply IH in H as (counts & Hp & -> & Hd); [|lia].
  rewrite check_bucket_clock, record_try_at_clock in Hp. simpl in Hp.
  exists (tries :: counts). rewrite remaining_succ by lia.
  split; [simpl; rewrite Hs; simpl; rewrite Hp; reflexivity|].
  split; [reflexivity|].
  eapply same_debug_trans; [exact Hd|]. simpl.
  apply record_tries_at_same_debug.
  eapply same_debug_trans; [apply check_bucket_same_debug|].
  apply record_try_at_same_debug. split; reflexivity.
Qed.

Lemma acquire_at_inv fuel m bits m' :
  acquire_at sp fuel ln m = Some (bits, m') ->
  exists s1 ma s2 mb st,
    next_bit_at sp fuel ln m = Some (s1, ma)
    /\ next_bit_at sp fuel ln ma = Some (s2, mb)
    /\ scan_at sp fuel fuel ln 0 zero_bits s2 mb = Some (bits, st, m').
Proof.
  unfold acquire_at. intros H.
  destruct (next_bit_at sp fuel ln m) as [[s1 ma]|] eqn:E1; [|discriminate].
  simpl in H.
  destruct (next_bit_at sp fuel ln ma) as [[s2 mb]|] eqn:E2; [|discriminate].
  simpl in H.
  destruct (scan_at sp fuel fuel ln 0 zero_bits s2 mb) as [[[b st] mc]|] eqn:E3;
    [|discriminate].
  simpl in H. inversion H; subst. exists s1, ma, s2, mb, st. auto.
Qed.

Lemma read_therm_at_inv fuel m r m' :
  read_therm_at sp fuel ln m = Some (r, m') ->
  exists bits, acquire_at sp fuel ln m = Some (bits, m') /\ r = finish bits.
Proof.
  unfold read_therm_at. intros H.
  destruct (acquire_at sp fuel ln m) as [[bits mc]|]; [|discriminate].
  simpl in H. inversion H; subst. eauto.
Qed.

(** A transaction under any layout: 44 pulses, the buckets of pulses 3
    to 42, and the debug globals of 44 stores. *)
Lemma acquire_at_counts fuel m bits m' :
  acquire_at sp fuel ln m = Some (bits, m') ->
  exists counts,
    pulse_counts 44 fuel ln (clock m) = Some (counts, clock m')
    /\ bits = scan_bits 0 (map classify (take 40 (drop 2 counts))) zero_bits
    /\ same_debug m' (record_tries_at sp counts m).
Proof.
  intros H.
  destruct (acquire_at_inv _ _ _ _ H) as (s1 & ma & s2 & mb & st & H1 & H2 & H3).
  destruct (next_bit_at_inv _ _ _ _ H1) as (c1 & t1 & Hs1 & _ & ->).
  destruct (next_bit_at_inv _ _ _ _ H2) as (c2 & t2 & Hs2 & _ & ->).
  rewrite record_try_at_clock in Hs2. simpl in Hs2.
  apply scan_at_counts in H3 as (counts & Hp & -> & Hd);
    [|unfold BIT_TRANSITIONS; lia].
  change (Z.to_nat (BIT_TRANSITIONS - 0)) with 42%nat in Hp.
  rewrite record_try_at_clock in Hp. cbn [clock set_clock] in Hp.
  pose proof (pulse_counts_length _ _ _ _ _ _ Hp) as Hlen.
  exists (c1 :: c2 :: counts). split; [|split].
  - change 44%nat with (2 + 42)%nat. rewrite pulse_counts_app.
    remember 42%nat as n eqn:En. simpl.
    rewrite Hs1. simpl. rewrite Hs2. simpl. rewrite Hp. reflexivity.
  - change (drop 2 (c1 :: c2 :: counts)) with counts.
    rewrite <- firstn_map. apply scan_bits_take40; [|reflexivity].
    rewrite length_map. lia.
  - eapply same_debug_trans; [exact Hd|]. simpl.
    apply record_tries_at_same_debug, record_try_at_same_debug.
    apply (same_debug_trans _ (record_try_at sp c1 (set_clock t1 m)));
      [split; reflexivity|].
    apply record_try_at_same_debug. split; reflexivity.
Qed.

End Layouts.

Section NoSpill.

(** [record_try] is [record_try_at] for the layout in which the store
    hits neither global; so are the functions built on it. *)
Lemma record_try_at_no_spill c m : record_try_at no_spill c m = record_try c m.
Proof.
  unfold record_try_at, record_try, no_spill.
  destruct (decide (Z.to_nat (try_count m) < length (tries_b m))%nat) as [H | H];
    [reflexivity|].
  simpl. rewrite list_insert_ge by lia. reflexivity.
Qed.

Lemma next_bit_at_no_spill fuel ln m :
  next_bit_at no_spill fuel ln m = next_bit fuel ln m.
Proof.
  unfold next_bit_at, next_bit.
  destruct (sample_pulse fuel ln (clock m)) as [[c t]|]; [|reflexivity].
  simpl. rewrite record_try_at_no_spill. reflexivity.
Qed.

Lemma scan_at_no_spill gas : forall fuel ln c bits st m,
  scan_at no_spill gas fuel ln c bits st m = scan gas fuel ln c bits st m.
Proof.
  induction gas as [|gas IH]; intros fuel ln c bits st m; simpl; [reflexivity|].
  destruct (c <? BIT_TRANSITIONS); [|reflexivity].
  rewrite next_bit_at_no_spill.
  destruct (next_bit fuel ln m) as [[s m1]|]; simpl; [apply IH | reflexivity].
Qed.

Lemma acquire_at_no_spill fuel ln m :
  acquire_at no_spill fuel ln m = acquire fuel ln m.
Proof.
  unfold acquire_at, acquire. rewrite next_bit_at_no_spill.
  destruct (next_bit fuel ln m) as [[s1 ma]|]; simpl; [|reflexivity].
  rewrite next_bit_at_no_spill.
  destruct (next_bit fuel ln ma) as [[s2 mb]|]; simpl; [|reflexivity].
  rewrite scan_at_no_spill. reflexivity.
Qed.

Lemma read_therm_at_no_spill fuel ln m :
  read_therm_at no_spill fuel ln m = read_therm fuel ln m.
Proof.
  unfold read_therm_at, read_therm. rewrite acquire_at_no_spill. reflexivity.
Qed.

End NoSpill.

Section Overrun.

Variable sp : Spill.
Variable ln : Line.

Lemma next_bit_at_faults fuel m s m' f :
  next_bit_at sp fuel ln m = Some (s, m') ->
  In f (faults m) -> In f (faults m').
Proof.
  intros H Hf. destruct (next_bit_at_inv _ _ _ _ _ _ H) as (c & t & _ & _ & ->).
  apply record_try_at_faults. assumption.
Qed.

Lemma scan_at_faults gas : forall fuel c bits st m r f,
  scan_at sp gas fuel ln c bits st m = Some r ->
  In f (faults m) -> In f (faults r.2).
Proof.
  induction gas as [|gas IH]; intros fuel c bits st m r f H Hf;
    simpl in H; destruct (c <? BIT_TRANSITIONS);
    try discriminate; try (inversion H; subst; assumption).
  destruct (next_bit_at sp fuel ln m) as [[s m1]|] eqn:En; [|discriminate].
  simpl in H. eapply IH; [eassumption|].
  apply check_bucket_faults. eapply next_bit_at_faults; eassumption.
Qed.




(** From the write index 0, the call that stores past the end is the
    44th and the index is 43. *)
Lemma scan_at_overruns_at_43 gas : forall fuel c bits st m r,
  scan_at sp gas fuel ln c bits st m = Some r ->
  0 <= c <= 41 -> try_count m = c + 2 -> length (tries_b m) = 43%nat ->
  In (OutOfBounds Tries_b 43) (faults r.2).
Proof.
  induction gas as [|gas IH]; intros fuel c bits st m r H Hc Ht Hlen;
    simpl in H; destruct (c <? BIT_TRANSITIONS) eqn:E;
    try discriminate;
    try (apply Z.ltb_ge in E; unfold BIT_TRANSITIONS in E; lia).
  destruct (next_bit_at sp fuel ln m) as [[s m1]|] eqn:En; [|discriminate].
  simpl in H.
  destruct (next_bit_at_inv _ _ _ _ _ _ En) as (tries & t2 & _ & _ & ->).
  destruct (Z.eq_dec c 41) as [-> | Hne].
  - eapply scan_at_faults; [eassumption|]. apply check_bucket_faults.
    replace 43 with (try_count (set_clock t2 m)) by (simpl; lia).
    apply record_try_at_overrun. simpl. lia.
  - rewrite record_try_at_in_range in H by (simpl; lia).
    eapply IH; [eassumption | lia | |].
    + rewrite check_bucket_try_count. simpl. rewrite Ht.
      rewrite to_uint8_small by (unfold is_uint8; lia). lia.
    + rewrite check_bucket_tries_b. simpl. rewrite length_insert. assumption.
Qed.

(** The debug globals after the first transaction: the first 43 counts
    fill the buffer and bring the index to 43; the 44th store is the
    stray one, and the increment follows it. *)
Lemma first_transaction_globals fuel m bits m' :
  acquire_at sp fuel ln m = Some (bits, m') ->
  try_count m = 0 -> length (tries_b m) = 43%nat ->
  exists counts c44,
    pulse_counts 44 fuel ln (clock m) = Some (counts ++ [c44], clock m')
    /\ length counts = 43%nat
    /\ In (OutOfBounds Tries_b 43) (faults m')
    /\ tries_b m' = (sp 43 c44 (counts, 43)).1
    /\ try_count m' = to_uint8 ((sp 43 c44 (counts, 43)).2 + 1).
Proof.
  intros H Ht Hlen.
  destruct (acquire_at_counts _ _ _ _ _ _ H) as (all & Hp & _ & Hd & Hc).
  pose proof (pulse_counts_length _ _ _ _ _ _ Hp) as Hall.
  assert (Hsplit : exists c44, all = take 43 all ++ [c44]).
  { pose proof (take_drop 43 all) as Htd.
    pose proof (length_drop all 43) as Hl. rewrite Hall in Hl.
    destruct (drop 43 all) as [|c44 [|? ?]]; try discriminate.
    exists c44. symmetry. exact Htd. }
  destruct Hsplit as (c44 & Hsplit).
  assert (Hpre : length (take 43 all) = 43%nat) by (rewrite length_take; lia).
  exists (take 43 all), c44. rewrite <- Hsplit.
  split; [assumption|]. split; [assumption|]. split.
  - destruct (acquire_at_inv _ _ _ _ _ _ H)
      as (s1 & ma & s2 & mb & st & H1 & H2 & H3).
    destruct (next_bit_at_inv _ _ _ _ _ _ H1) as (c1 & t1 & _ & _ & ->).
    destruct (next_bit_at_inv _ _ _ _ _ _ H2) as (c2 & t2 & _ & _ & ->).
    assert (E1 : record_try_at sp c1 (set_clock t1 m)
                 = record_try c1 (set_clock t1 m))
      by (apply record_try_at_in_range; simpl; lia).
    rewrite E1 in H3.
    assert (E2 : record_try_at sp c2 (set_clock t2 (record_try c1 (set_clock t1 m)))
                 = record_try c2 (set_clock t2 (record_try c1 (set_clock t1 m)))).
    { apply record_try_at_in_range. simpl.
      rewrite length_insert, Ht, to_uint8_small by (unfold is_uint8; lia). lia. }
    rewrite E2 in H3.
    apply (scan_at_overruns_at_43 _ _ _ _ _ _ _ H3); [lia | |].
    + simpl. rewrite Ht. reflexivity.
    + simpl. rewrite !length_insert. assumption.
  - rewrite Hsplit, record_tries_at_app in Hd, Hc.
    rewrite (record_tries_at_in_range sp (take 43 all) m 0) in Hd, Hc
      by (rewrite ?Hpre, ?Hlen; simpl; lia).
    destruct (record_tries_fill (take 43 all) m Ht Hlen Hpre) as [Hb Hi].
    simpl in Hd, Hc. unfold record_try_at in Hd, Hc.
    rewrite Hb, Hi, Hpre in Hd, Hc.
    destruct (decide (Z.to_nat 43 < 43)%nat) as [Hlt | _]; [lia|].
    simpl in Hd, Hc. auto.
Qed.

End Overrun.

(** * Results on the loop and on the debug trace *)

(** C4: in every transaction that returns, the frame assembler is fed
    the bits of pulses 3 to 42 in arrival order; bit [i] (from 0) goes
    to bucket [i / 8], each step being [bucket = (bucket << 1) | bit];
    the buckets the transaction leaves are the values of their eight
    bits read most significant bit first, bit [i] sitting at position
    [7 - i mod 8] of bucket [i / 8]. *)
Theorem frame_assembler_big_endian (fuel : nat) (ln : Line) (m : Machine)
    (bits : list Z) (m' : Machine) :
  acquire fuel ln m = Some (bits, m') ->
  exists counts data,
    pulse_counts 44 fuel ln (clock m) = Some (counts, clock m')
    /\ data = map classify (take 40 (drop 2 counts))
    /\ length data = 40%nat /\ Forall is_bit data
    /\ bits = scan_bits 0 data zero_bits
    /\ (forall i b, data !! i = Some b ->
          bucket_of (Z.of_nat i) = Z.of_nat (i / 8)
          /\ exists v, bits !! (i / 8)%nat = Some v
                       /\ Z.testbit v (7 - Z.of_nat (i mod 8)) = (b =? 1))
    /\ (forall k, (k < 5)%nat ->
          bits !! k = Some (be_value (take 8 (drop (8 * k) data))))
    /\ (forall i s cells old,
          0 <= i < 40 -> length cells = 5%nat ->
          cells !! Z.to_nat (i / 8) = Some old ->
          shift_in i s cells
          = <[Z.to_nat (i / 8) := to_uint8 (Z.lor (Z.shiftl old 1) s)]> cells).
Proof.
  intros H. destruct (acquire_counts _ _ _ _ _ H) as (counts & Hp & Hb & _).
  pose proof (pulse_counts_length _ _ _ _ _ _ Hp) as Hlen.
  set (data := map classify (take 40 (drop 2 counts))) in *.
  assert (Hd : length data = 40%nat).
  { unfold data. rewrite length_map, length_take, length_drop. lia. }
  assert (Hbits : Forall is_bit data).
  { unfold data. apply Forall_forall. intros x Hx.
    apply list_elem_of_In, in_map_iff in Hx as (c & <- & _).
    apply classify_bit. }
  destruct (scan_bits_big_endian data Hd Hbits) as (Hpos & Hval & Hstep).
  exists counts, data. rewrite Hb.
  split; [assumption|]. split; [reflexivity|]. split; [assumption|].
  split; [assumption|]. split; [reflexivity|].
  split; [assumption|]. split; assumption.
Qed.


(** X2: a pulse that keeps the pin high for [c + 1] reads and then
    low, with [c] up to 255, makes [next_bit] return after [c + 2]
    reads with the bit of the count [c]; with the write index inside
    the buffer of 43 cells, the cell at the index then holds [c], every
    other cell is as before, the index has moved on by one and no
    store past the end is recorded. *)
Theorem next_bit_reads_pulse (ln : Line) (m : Machine) (c fuel : nat) :
  (forall i, (i <= c)%nat -> read_pin (ln (clock m + i)%nat) = 1) ->
  read_pin (ln (clock m + S c)%nat) = 0 ->
  (c <= 255)%nat -> (c + 2 <= fuel)%nat ->
  length (tries_b m) = 43%nat -> 0 <= try_count m < 43 ->
  exists m',
    next_bit fuel ln m = Some ((if 28 <? Z.of_nat c then 1 else 0), m')
    /\ clock m' = (clock m + (c + 2))%nat
    /\ tries_b m' !! Z.to_nat (try_count m) = Some (Z.of_nat c)
    /\ (forall j, j <> Z.to_nat (try_count m) ->
          tries_b m' !! j = tries_b m !! j)
    /\ try_count m' = try_count m + 1
    /\ faults m' = faults m.
Proof.
  intros Hhi Hlo Hc Hf Hlen Hin. eexists. unfold next_bit.
  rewrite (sample_pulse_of_pulse ln (clock m) c fuel Hhi Hlo Hc Hf).
  split.
  { simpl. unfold classify, LONG_PULSE_LENGTH.
    rewrite Z.gtb_ltb. reflexivity. }
  simpl. split; [reflexivity|]. split.
  { apply list_lookup_insert_eq. lia. }
  split.
  { intros j Hj. apply list_lookup_insert_ne. congruence. }
  split.
  { apply to_uint8_small. unfold is_uint8. lia. }
  destruct (decide (Z.to_nat (try_count m) < length (tries_b m))%nat);
    [reflexivity | lia].
Qed.

(** X7: under every layout in which a store past the end of [tries_b]
    changes no cell of it, after a transaction that starts with the
    write index at 0 and the buffer of 43 cells, [tries_b] holds the
    counts of the first 43 of the 44 pulses, in order. *)
Theorem first_transaction_trace (sp : Spill) (fuel : nat) (ln : Line)
    (m : Machine) (r : RHTresult) (m' : Machine) :
  keeps_buffer sp ->
  read_therm_at sp fuel ln m = Some (r, m') ->
  try_count m = 0 -> length (tries_b m) = 43%nat ->
  exists counts,
    pulse_counts 44 fuel ln (clock m) = Some (counts, clock m')
    /\ length counts = 44%nat
    /\ tries_b m' = take 43 counts
    /\ (forall j, (j < 43)%nat -> tries_b m' !! j = counts !! j).
Proof.
  intros Hk H Ht Hlen.
  destruct (read_therm_at_inv _ _ _ _ _ _ H) as (bits & Ha & _).
  destruct (first_transaction_globals _ _ _ _ _ _ Ha Ht Hlen)
    as (counts & c44 & Hp & Hc & _ & Hb & _).
  rewrite Hk in Hb. simpl in Hb.
  assert (Htake : take 43 (counts ++ [c44]) = counts)
    by (apply take_app_length'; symmetry; assumption).
  exists (counts ++ [c44]). split; [assumption|].
  split; [rewrite length_app; simpl; lia|].
  split; [rewrite Htake; assumption|].
  intros j Hj. rewrite Hb. symmetry. apply lookup_app_l. lia.
Qed.

(** X11: [main] up to the end of its [n]-th pass: the LED pin is an
    output and the clock prescaler is 0, set once by [setup_avr] and
    kept by every pass; the LED level is the one at reset; the passes
    have waited 2605 ms each, so two transactions are at least 2.6 s
    apart; after the first pass the sensor pin is an input with
    pull-up and the interrupts are enabled. *)
Theorem main_keeps_ports (n fuel : nat) (ln : Line) (p : Ports)
    (rs : list RHTresult) (p' : Ports) (m' : Machine) (out : list Out) :
  main n fuel ln p = Some (rs, p', m', out) ->
  is_uint8 (DDRB p) -> is_uint8 (PORTB p) ->
  length rs = n
  /\ Z.testbit (DDRB p') LED = true
  /\ CLKPR p' = 0
  /\ Z.testbit (PORTB p') LED = Z.testbit (PORTB p) LED
  /\ waited_ms p' = waited_ms p + 2605 * Z.of_nat n
  /\ ((0 < n)%nat ->
        Z.testbit (DDRB p') THERM = false
        /\ Z.testbit (PORTB p') THERM = true /\ irq p' = true).
Proof.
  unfold main, setup_avr. intros H Hd Hp.
  match type of H with
  | context [main_passes n fuel ln ?q boot] => set (p0 := q) in *
  end.
  destruct (main_passes n fuel ln p0 boot) as [[[[rs0 p1] m1] out1]|] eqn:E;
    [|discriminate].
  simpl in H. inversion H; subst. clear H.
  destruct (main_passes_inv ln n fuel p0 boot rs p' m' out1 E)
    as (Hl & Hw & Hc & Hk & Hth).
  { unfold p0. simpl. apply is_uint8_to_uint8. }
  { unfold p0. simpl. assumption. }
  destruct (Hk LED) as [HkD HkP]; [unfold LED, PB1; lia | discriminate |].
  split; [assumption|]. split; [|split; [|split; [|split]]].
  - rewrite HkD. unfold p0. cbn [write_DDRB write_CLKPR DDRB].
    rewrite testbit_set_bits by (unfold LED, PB1; lia).
    rewrite Z.eqb_refl. reflexivity.
  - rewrite Hc. reflexivity.
  - rewrite HkP. reflexivity.
  - rewrite Hw. reflexivity.
  - assumption.
Qed.

Lemma frame_assembler_big_endian_witness :
  exists bits m',
    acquire 300 (line_of_counts train44) boot = Some (bits, m')
    /\ exists counts data,
         pulse_counts 44 300 (line_of_counts train44) (clock boot)
         = Some (counts, clock m')
         /\ data = map classify (take 40 (drop 2 counts))
         /\ bits = scan_bits 0 data zero_bits
         /\ bits !! 1%nat = Some (be_value (take 8 (drop 8 data))).
Proof.
  eexists. eexists. split; [vm_compute; reflexivity|].
  destruct (frame_assembler_big_endian 300 (line_of_counts train44) boot _ _
              ltac:(vm_compute; reflexivity))
    as (counts & data & Hp & Hd & _ & _ & Hb & _ & Hval & _).
  exists counts, data. split; [exact Hp|]. split; [exact Hd|].
  split; [exact Hb|]. exact (Hval 1%nat ltac:(lia)).
Defined.


Lemma next_bit_reads_pulse_witness :
  exists m',
    next_bit 42 (line_of_counts [40%nat]) boot = Some (1, m')
    /\ clock m' = 42%nat
    /\ tries_b m' !! 0%nat = Some 40
    /\ try_count m' = 1
    /\ faults m' = [].
Proof.
  destruct (next_bit_reads_pulse (line_of_counts [40%nat]) boot 40 42)
    as (m' & Hn & Hc & Hs & _ & Ht & Hf).
  - intros i Hi. do 41 (destruct i as [|i]; [reflexivity|]). lia.
  - reflexivity.
  - lia.
  - lia.
  - reflexivity.
  - simpl. lia.
  - exists m'. split; [exact Hn|]. split; [exact Hc|]. split; [exact Hs|].
    split; [exact Ht | exact Hf].
Defined.

Lemma first_transaction_trace_witness :
  keeps_buffer spill_onto_try_count
  /\ exists r m',
       read_therm_at spill_onto_try_count 300 (line_of_counts train44) boot
       = Some (r, m')
       /\ exists counts,
            pulse_counts 44 300 (line_of_counts train44) (clock boot)
            = Some (counts, clock m')
            /\ length counts = 44%nat
            /\ tries_b m' = take 43 counts
            /\ (forall j, (j < 43)%nat -> tries_b m' !! j = counts !! j).
Proof.
  assert (Hk : keeps_buffer spill_onto_try_count).
  { intros i v g. unfold spill_onto_try_count.
    destruct (i =? Z.of_nat (length g.1)); reflexivity. }
  split; [exact Hk|].
  eexists. eexists. split; [vm_compute; reflexivity|].
  eapply (first_transaction_trace spill_onto_try_count 300
            (line_of_counts train44) boot _ _ Hk);
    [vm_compute; reflexivity | reflexivity | reflexivity].
Defined.

Lemma main_keeps_ports_witness :
  exists rs p' m' out,
    main 2 300 (line_of_counts (train44 ++ train44)) (mkPorts 0 0 0 false 0 [])
    = Some (rs, p', m', out)
    /\ length rs = 2%nat
    /\ Z.testbit (DDRB p') LED = true
    /\ waited_ms p' = 5210.
Proof.
  do 4 eexists. split; [vm_compute; reflexivity|].
  match goal with
  | |- length ?rs = _ /\ Z.testbit (DDRB ?q) _ = _ /\ _ =>
      pose proof (main_keeps_ports 2 300
                    (line_of_counts (train44 ++ train44))
                    (mkPorts 0 0 0 false 0 []) rs q _ _
                    ltac:(vm_compute; reflexivity)
                    ltac:(unfold is_uint8; simpl; lia)
                    ltac:(unfold is_uint8; simpl; lia))
        as (Hl & Hd & _ & _ & Hw & _)
  end.
  split; [exact Hl|]. split; [exact Hd | exact Hw].
Defined.
